(** * Deadline countdown bot: escaping, message tiers, handlers and jobs

    A shallow embedding of [main.py].  Python [str] values are modelled as
    Rocq strings holding the UTF-8 encoding of the text.  The characters the
    escaping inspects (the MarkdownV2 reserved characters and the backslash)
    are ASCII, and no byte of a multi-byte UTF-8 sequence is an ASCII byte,
    so substitution on bytes and substitution on code points agree.  The
    date parser runs over characters: the text is cut into its UTF-8
    characters, and a decimal digit outside ASCII is looked up in the digit
    table of the runtime, over which the development is parametric. *)

From Stdlib Require Import ZArith String Ascii List Bool Lia.
From Stdlib Require Import DecimalString DecimalPos DecimalZ.
From stdpp Require Import gmap strings.

Local Open Scope Z_scope.

(** ** Text helpers *)

(** The Python escape [\n]. *)
Definition nl : string := String (ascii_of_nat 10) EmptyString.

(** [str(n)] / [f"{n}"] for a Python [int]. *)
Definition str_of_int (n : Z) : string := NilZero.string_of_int (Z.to_int n).

Definition chars (s : string) : list ascii := list_ascii_of_string s.

(** ** [clean_markdown] *)

Module Markdown.

(** [escape_chars = r'_*[]()~`>#+-=|{}.!'] *)
Definition escape_chars : string := "_*[]()~`>#+-=|{}.!".

Definition backslash : ascii := "\"%char.

(** Membership in the character class [[{re.escape(escape_chars)}]]. *)
Definition is_special (c : ascii) : bool :=
  existsb (Ascii.eqb c) (chars escape_chars).

Definition is_backslash (c : ascii) : bool := Ascii.eqb c backslash.

#[global] Arguments is_special : simpl never.
#[global] Arguments is_backslash : simpl never.

(** [re.sub(pattern, escape_char, text)] with
    [pattern = (?<!\\)([...])]: a left-to-right scan of [text]; a character
    of the class that is not preceded (in [text]) by a backslash is replaced
    by a backslash followed by itself, everything else is copied.
    [prev] says whether the character before the current position is a
    backslash. *)
Fixpoint sub_from (prev : bool) (text : string) : string :=
  match text with
  | EmptyString => EmptyString
  | String c rest =>
      let tail := sub_from (is_backslash c) rest in
      if negb prev && is_special c
      then String backslash (String c tail)
      else String c tail
  end.

(** At position 0 the look-behind finds nothing, so it succeeds. *)
Definition clean_markdown (text : string) : string := sub_from false text.

(** The spec's words: each reserved character preceded by one escape
    marker, every other character unchanged. *)
Fixpoint escape_each (text : string) : string :=
  match text with
  | EmptyString => EmptyString
  | String c rest =>
      if is_special c
      then String backslash (String c (escape_each rest))
      else String c (escape_each rest)
  end.

Definition has_special (text : string) : bool := existsb is_special (chars text).
Definition has_backslash (text : string) : bool := existsb is_backslash (chars text).

Fixpoint count_char (c : ascii) (text : string) : nat :=
  match text with
  | EmptyString => O
  | String d rest => (if Ascii.eqb c d then 1 else 0)%nat + count_char c rest
  end.

(** Every reserved character occurs exactly once in [text]. *)
Definition each_special_once (text : string) : bool :=
  forallb (fun c => Nat.eqb (count_char c text) 1) (chars escape_chars).

(** Whether the character before the position that follows [text] is a
    backslash, [prev] being the answer for the position where [text] starts. *)
Fixpoint ends_with_backslash (prev : bool) (text : string) : bool :=
  match text with
  | EmptyString => prev
  | String c rest => ends_with_backslash (is_backslash c) rest
  end.

(** [sub] occurs in [s]. *)
Definition contains (sub s : string) : Prop :=
  exists pre post : string, s = pre +:+ sub +:+ post.

(** Every reserved character of [text] stands right after a backslash;
    [prev] says whether the position where [text] starts follows one. *)
Fixpoint escaped_from (prev : bool) (text : string) : bool :=
  match text with
  | EmptyString => true
  | String c rest =>
      (negb (is_special c) || prev) && escaped_from (is_backslash c) rest
  end.

Definition all_escaped (text : string) : bool := escaped_from false text.

(** [text] with its backslashes taken out. *)
Fixpoint strip_backslashes (text : string) : string :=
  match text with
  | EmptyString => EmptyString
  | String c rest =>
      if is_backslash c then strip_backslashes rest
      else String c (strip_backslashes rest)
  end.

End Markdown.

Import Markdown.

(** ** [format_message] *)

Module Composer.

(** The six message bodies handed to [clean_markdown], in source order. *)
Definition today_text : string :=
  "🚨🚨🚨 TODAY IS THE DEADLINE! 🚨🚨🚨" +:+ nl +:+ nl +:+
  "🔥 DROP EVERYTHING AND FINISH! 🔥" +:+ nl +:+
  "▪️ No procrastination!" +:+ nl +:+
  "▪️ No excuses!" +:+ nl +:+
  "▪️ Just GET IT DONE! ✅".

Definition one_day_text : string :=
  "⚠️⚠️ ONE DAY LEFT! ⚠️⚠️" +:+ nl +:+ nl +:+
  "⏰ FINAL PUSH! ⏰" +:+ nl +:+
  "▪️ Review everything!" +:+ nl +:+
  "▪️ Fix last-minute issues!" +:+ nl +:+
  "▪️ You're almost there! 💪".

Definition urgent_short_text (days : Z) : string :=
  "🔔 " +:+ str_of_int days +:+ " DAYS LEFT! 🔔" +:+ nl +:+ nl +:+
  "❗ Urgent Action Needed! ❗" +:+ nl +:+
  "▪️ Prioritize critical tasks!" +:+ nl +:+
  "▪️ No distractions!" +:+ nl +:+
  "▪️ Stay focused! 🎯".

Definition high_alert_text (days : Z) : string :=
  "🔥🔥🔥 **" +:+ str_of_int days +:+ " DAYS LEFT!** 🔥🔥🔥" +:+ nl +:+ nl +:+
  "🚨🚨 **TIME IS RUNNING OUT!** 🚨🚨" +:+ nl +:+
  "⚠️ **NO ROOM FOR MISTAKES!** ⚠️" +:+ nl +:+
  "🛑 **FINAL PUSH!** 🛑" +:+ nl +:+
  "🔥 **WORK FAST!** 🔥 **WORK SMART!** 🔥 **NO EXCUSES!** 🚀" +:+ nl +:+
  "⏳ **EVERY SECOND COUNTS!** ⏳".

Definition elevated_caution_text (days : Z) : string :=
  "⚠️⚠️⚠️ **" +:+ str_of_int days +:+ " DAYS REMAINING!** ⚠️⚠️⚠️" +:+ nl +:+ nl +:+
  "🚨 **DANGER ZONE!** 🚨" +:+ nl +:+
  "🔥 **DON'T GET COMPLACENT!** 🔥" +:+ nl +:+
  "⏳ **THE CLOCK IS MERCILESS!** ⏳" +:+ nl +:+
  "💀 **WASTE A DAY, REGRET IT FOREVER!** 💀" +:+ nl +:+
  "🚀 **FULL SPEED AHEAD!** 🚀".

Definition long_range_text (days : Z) : string :=
  "🟥🟥🟥 **" +:+ str_of_int days +:+ " DAYS LEFT!** 🟥🟥🟥" +:+ nl +:+ nl +:+
  "🚨 **RED ALERT!** 🚨" +:+ nl +:+
  "🔥 **THE DEADLINE IS WATCHING YOU!** 🔥" +:+ nl +:+
  "💀 **EVERY HOUR YOU WASTE BRINGS DOOM!** 💀" +:+ nl +:+
  "⏳ **NO SECOND CHANCES!** ⏳" +:+ nl +:+
  "🛑 **START WORKING NOW OR SUFFER LATER!** 🛑".

(** The [if]/[elif] chain of [format_message]. *)
Definition format_message (days : Z) : string :=
  if days =? 0 then clean_markdown today_text
  else if days =? 1 then clean_markdown one_day_text
  else if days <=? 3 then clean_markdown (urgent_short_text days)
  else if days <=? 7 then clean_markdown (high_alert_text days)
  else if days <=? 14 then clean_markdown (elevated_caution_text days)
  else clean_markdown (long_range_text days).

(** The tone bands as the specification names them. *)
Inductive tone : Set :=
  | Today | OneDay | UrgentShort | HighAlert | ElevatedCaution | CalmLongRange.

(** What a band sends for a day count: the band's body, escaped. *)
Definition tone_message (t : tone) (days : Z) : string :=
  match t with
  | Today => clean_markdown today_text
  | OneDay => clean_markdown one_day_text
  | UrgentShort => clean_markdown (urgent_short_text days)
  | HighAlert => clean_markdown (high_alert_text days)
  | ElevatedCaution => clean_markdown (elevated_caution_text days)
  | CalmLongRange => clean_markdown (long_range_text days)
  end.

(** The band table of the specification, for a non-negative day count:
    0, 1, 2..3, 4..7, 8..14, 15 and above. *)
Definition spec_band (daysLeft : Z) : tone :=
  if daysLeft =? 0 then Today
  else if daysLeft =? 1 then OneDay
  else if (2 <=? daysLeft) && (daysLeft <=? 3) then UrgentShort
  else if (4 <=? daysLeft) && (daysLeft <=? 7) then HighAlert
  else if (8 <=? daysLeft) && (daysLeft <=? 14) then ElevatedCaution
  else CalmLongRange.

End Composer.

Import Composer.

(** ** Calendar dates: [datetime.date] and [datetime.strptime] *)

Module Calendar.

Record date : Set := mk_date { year : Z; month : Z; day : Z }.

#[export] Instance date_eq_dec : EqDecision date.
Proof. solve_decision. Defined.

(** [datetime._is_leap] *)
Definition is_leap (y : Z) : bool :=
  (y mod 4 =? 0) && (negb (y mod 100 =? 0) || (y mod 400 =? 0)).

(** [datetime._DAYS_IN_MONTH], index 0 unused *)
Definition DAYS_IN_MONTH : list Z := [0; 31; 28; 31; 30; 31; 30; 31; 31; 30; 31; 30; 31].

(** [datetime._DAYS_BEFORE_MONTH], index 0 unused *)
Definition DAYS_BEFORE_MONTH : list Z :=
  [0; 0; 31; 59; 90; 120; 151; 181; 212; 243; 273; 304; 334].

Definition days_in_month (y m : Z) : Z :=
  if (m =? 2) && is_leap y then 29 else nth (Z.to_nat m) DAYS_IN_MONTH 0.

Definition days_before_year (y : Z) : Z :=
  let y' := y - 1 in y' * 365 + y' / 4 - y' / 100 + y' / 400.

Definition days_before_month (y m : Z) : Z :=
  nth (Z.to_nat m) DAYS_BEFORE_MONTH 0 + (if (2 <? m) && is_leap y then 1 else 0).

(** [date.toordinal()] *)
Definition toordinal (d : date) : Z :=
  days_before_year (year d) + days_before_month (year d) (month d) + day d.

(** [(a - b).days] *)
Definition days_between (a b : date) : Z := toordinal a - toordinal b.

(** The range checks of the [date] constructor (MINYEAR = 1, MAXYEAR = 9999). *)
Definition check_date_fields (y m d : Z) : bool :=
  (1 <=? y) && (y <=? 9999) && (1 <=? m) && (m <=? 12) &&
  (1 <=? d) && (d <=? days_in_month y m).

Fixpoint zeros (n : nat) : string :=
  match n with O => EmptyString | S k => String "0" (zeros k) end.

(** ["%0<width>d"] for a non-negative number *)
Definition zero_padded (width : nat) (n : Z) : string :=
  let s := str_of_int n in zeros (width - String.length s) +:+ s.

(** [str(d)], that is [d.isoformat()] *)
Definition isoformat (d : date) : string :=
  zero_padded 4 (year d) +:+ "-" +:+ zero_padded 2 (month d) +:+ "-" +:+
  zero_padded 2 (day d).

(** *** The regular expression [_strptime] builds for ["%Y-%m-%d"]

    [(?P<Y>\d\d\d\d)-(?P<m>1[0-2]|0[1-9]|[1-9])-(?P<d>3[0-1]|[1-2]\d|0[1-9]|[1-9]| [1-9])]
    matched at the start of the text; afterwards [_strptime] raises
    [ValueError] when text remains after the match.

    The pattern is a [str] pattern: it runs over the characters of the
    text, and its [\d] is any Unicode decimal digit, which [int] reads
    with its digit value. *)

Definition code (c : ascii) : Z := Z.of_nat (nat_of_ascii c).

(** The decimal digits outside ASCII (Unicode category Nd), as [\d] and
    [int] know them: the digit value of a character given by its UTF-8
    bytes, [None] for a character that is no decimal digit.  The table
    belongs to the Python runtime, not to the program; the model consults
    it for characters of more than one byte only, and every statement
    about the parser holds whatever the table is. *)
Class DigitTable : Type := decimal_value : string -> option Z.

(** A byte of the form 10xxxxxx, which continues a UTF-8 character. *)
Definition is_continuation (c : ascii) : bool := (128 <=? code c) && (code c <? 192).

(** The characters of a text, each as its UTF-8 bytes: a byte together
    with the continuation bytes after it. *)
Fixpoint characters (s : string) : list string :=
  match s with
  | EmptyString => []
  | String c rest =>
      match rest with
      | EmptyString => [String c EmptyString]
      | String c' _ =>
          if is_continuation c'
          then match characters rest with
               | ch :: tl => String c ch :: tl
               | [] => [String c EmptyString]
               end
          else String c EmptyString :: characters rest
      end
  end.

(** A character class: a set of characters. *)
Definition cls : Type := string -> bool.

Definition between (lo hi : ascii) : cls :=
  fun ch =>
    match ch with
    | String c EmptyString => (code lo <=? code c) && (code c <=? code hi)
    | _ => false
    end.
Definition lit (a : ascii) : cls := fun ch => String.eqb ch (String a EmptyString).

(** The digit value of a character: ["0"] to ["9"], or a decimal digit of
    the table. *)
Definition digit_value {T : DigitTable} (ch : string) : option Z :=
  match ch with
  | EmptyString => None
  | String c EmptyString =>
      if (code "0" <=? code c) && (code c <=? code "9") then Some (code c - 48) else None
  | _ => decimal_value ch
  end.

(** [\d] *)
Definition digit {T : DigitTable} : cls :=
  fun ch => match digit_value ch with Some _ => true | None => false end.

(** A sequence of character classes against the head of [s]: the matched
    characters and the rest. *)
Fixpoint match_seq (p : list cls) (s : list string) : option (list string * list string) :=
  match p with
  | [] => Some ([], s)
  | k :: p' =>
      match s with
      | [] => None
      | ch :: rest =>
          if k ch
          then '(m, r) ← match_seq p' rest; Some (ch :: m, r)
          else None
      end
  end.

(** The alternatives of a group that match, in the order the regex engine
    tries them. *)
Definition alternatives (alts : list (list cls)) (s : list string) :
  list (list string * list string) :=
  omap (fun p => match_seq p s) alts.

Definition Y_group {T : DigitTable} : list cls := [digit; digit; digit; digit].
Definition m_group : list (list cls) :=
  [[lit "1"; between "0" "2"]; [lit "0"; between "1" "9"]; [between "1" "9"]].
Definition d_group {T : DigitTable} : list (list cls) :=
  [[lit "3"; between "0" "1"]; [between "1" "2"; digit]; [lit "0"; between "1" "9"];
   [between "1" "9"]; [lit " "; between "1" "9"]].

Fixpoint first_some {A B : Type} (f : A -> option B) (l : list A) : option B :=
  match l with
  | [] => None
  | a :: l' => match f a with Some b => Some b | None => first_some f l' end
  end.

(** The groups [Y], [m], [d] of the first match, and the unconverted rest. *)
Definition format_regex_match {T : DigitTable} (s : list string) :
  option (list string * list string * list string * list string) :=
  '(Y, r1) ← match_seq Y_group s;
  '(_, r2) ← match_seq [lit "-"] r1;
  first_some
    (fun '(m, r3) =>
       '(_, r4) ← match_seq [lit "-"] r3;
       '(d, r5) ← head (alternatives d_group r4);
       Some (Y, m, d, r5))
    (alternatives m_group r2).

(** [int(s)] on a matched group: decimal digits, surrounding blanks ignored. *)
Definition int_of_group {T : DigitTable} (g : list string) : Z :=
  fold_left
    (fun acc ch => match digit_value ch with Some v => acc * 10 + v | None => acc end)
    g 0.

(** [datetime.strptime(text, "%Y-%m-%d").date()]; [None] stands for
    [ValueError] (no match, unconverted data, or fields out of range). *)
Definition strptime {T : DigitTable} (text : string) : option date :=
  '(Y, m, d, rest) ← format_regex_match (characters text);
  match rest with
  | [] =>
      let y := int_of_group Y in
      let mo := int_of_group m in
      let dy := int_of_group d in
      if check_date_fields y mo dy then Some (mk_date y mo dy) else None
  | _ :: _ => None
  end.

(** The part of the regular expression after the year group, on the
    text after the year: the groups [m] and [d] of the first match and the
    unconverted rest. *)
Definition month_day_match {T : DigitTable} (r1 : list string) :
  option (list string * list string * list string) :=
  '(_, r2) ← match_seq [lit "-"] r1;
  first_some
    (fun '(m, r3) =>
       '(_, r4) ← match_seq [lit "-"] r3;
       '(d, r5) ← head (alternatives d_group r4);
       Some (m, d, r5))
    (alternatives m_group r2).

(** The four-character text of year [y] is matched whole by the year group
    and read back as [y]. *)
Definition year_text_ok {T : DigitTable} (y : Z) : bool :=
  match match_seq Y_group (characters (zero_padded 4 y)) with
  | Some (Y, r) =>
      bool_decide (Y = characters (zero_padded 4 y)) && bool_decide (r = [])
      && (int_of_group Y =? y)
  | None => false
  end.

(** Two blocks of the table, for the sample runs: the Arabic-Indic digits
    U+0660 to U+0669 (bytes D9 A0 to D9 A9) and the fullwidth digits
    U+FF10 to U+FF19 (bytes EF BC 90 to EF BC 99). *)
Definition sample_digits : DigitTable :=
  fun ch =>
    match map code (chars ch) with
    | [217; b] => if (160 <=? b) && (b <=? 169) then Some (b - 160) else None
    | [239; 188; b] => if (144 <=? b) && (b <=? 153) then Some (b - 144) else None
    | _ => None
    end.

(** The date as a user may type it, month and day without leading zero. *)
Definition unpadded (d : date) : string :=
  zero_padded 4 (year d) +:+ "-" +:+ str_of_int (month d) +:+ "-" +:+
  str_of_int (day d).

(** A date the [date] constructor accepts. *)
Definition valid_date (d : date) : Prop :=
  check_date_fields (year d) (month d) (day d) = true.

(** Calendar order: by year, then month, then day. *)
Definition date_before (a b : date) : Prop :=
  year a < year b \/
  (year a = year b /\
   (month a < month b \/ (month a = month b /\ day a < day b))).

(** Days of a year. *)
Definition year_length (y : Z) : Z := if is_leap y then 366 else 365.

End Calendar.

Import Calendar.

(** ** Program state, effects and handlers *)

Module Bot.

(** A job of the scheduler.  Every job of the program runs
    [send_countdown] on the trigger
    [CronTrigger(hour=7, minute=0, timezone="Africa/Addis_Ababa")]; what
    distinguishes two jobs is the id and the argument list. *)
Record Job : Set := mk_job { job_id : string; job_args : Z }.

#[export] Instance Job_eq_dec : EqDecision Job.
Proof. solve_decision. Defined.

(** The module-level dictionaries [deadlines] and [scheduled_jobs], the
    job store of [scheduler], and the rows of table [deadlines] behind
    [db_pool]. *)
Record State : Type := mk_state {
  deadlines : gmap Z date;
  scheduled_jobs : gmap Z Job;
  job_store : list Job;
  db : gmap Z date
}.

(** Exceptions.  [StorageError] stands for whatever [asyncpg] raises when
    the store cannot be reached or a statement fails, [TransportError] for
    what the Telegram client raises; neither is a [ValueError].
    [AttributeError] is what reading an attribute of [None] raises. *)
Inductive exn : Set :=
  | ValueError | StorageError | TransportError | ConflictingIdError | JobLookupError
  | AttributeError.

(** Calls that leave the handler, in the order they are made. *)
Inductive action : Type :=
  | CacheSet (group_id : Z) (d : date)
  | DbSelect (group_id : Z)
  | DbUpsert (group_id : Z) (d : date)
  | JobRemove (id : string)
  | JobAdd (id : string) (group_id : Z)
  | ReplyText (chat_id : Z) (text : string)
  | SendMessage (chat_id : Z) (text : string)
  | LogError.

(** What the outside world answers during one handler run: the value of
    [date.today()] (one value for the run: the run does not cross
    midnight), whether the store call, the reply and the send succeed (a
    handler makes at most one call of each kind), and the bot's own user
    id. *)
Record Env : Type := mk_env {
  today : date;
  db_ok : bool;
  reply_ok : bool;
  send_ok : bool;
  bot_id : Z
}.

(** A computation reads and writes the state, appends to the call trace and
    ends with a value or an exception; the state reached when an exception
    is raised is kept, as in Python. *)
Definition M (A : Type) : Type := State -> State * list action * (exn + A).

Definition ret {A} (a : A) : M A := fun s => (s, [], inr a).

Definition bind {A B} (m : M A) (k : A -> M B) : M B :=
  fun s =>
    match m s with
    | (s1, t1, inl e) => (s1, t1, inl e)
    | (s1, t1, inr a) =>
        match k a s1 with
        | (s2, t2, r) => (s2, t1 ++ t2, r)
        end
    end.

Definition raise {A} (e : exn) : M A := fun s => (s, [], inl e).
Definition emit (a : action) : M unit := fun s => (s, [a], inr tt).
Definition get : M State := fun s => (s, [], inr s).
Definition put (s' : State) : M unit := fun _ => (s', [], inr tt).

(** [try: body  except <those selected by catches>: handler] *)
Definition try_except {A} (body : M A) (catches : exn -> bool) (handler : M A) : M A :=
  fun s =>
    match body s with
    | (s1, t1, inl e) =>
        if catches e
        then match handler s1 with (s2, t2, r) => (s2, t1 ++ t2, r) end
        else (s1, t1, inl e)
    | done => done
    end.

Notation "x <- c1 ;; c2" := (bind c1 (fun x => c2))
  (at level 100, c1 at next level, right associativity).
Notation "e1 ;; e2" := (bind e1 (fun _ => e2))
  (at level 100, right associativity).

Definition only_ValueError (e : exn) : bool :=
  match e with ValueError => true | _ => false end.
Definition any_Exception (e : exn) : bool := true.

Definition final_state {A} (r : State * list action * (exn + A)) : State := r.1.1.
Definition trace {A} (r : State * list action * (exn + A)) : list action := r.1.2.
Definition outcome {A} (r : State * list action * (exn + A)) : exn + A := r.2.

(** *** Primitive operations *)

(** [deadlines[group_id] = deadline_date] *)
Definition set_deadline (group_id : Z) (d : date) : M unit :=
  s <- get ;;
  emit (CacheSet group_id d) ;;
  put (mk_state (<[group_id := d]> (deadlines s)) (scheduled_jobs s) (job_store s) (db s)).

(** [scheduled_jobs[group_id] = job] *)
Definition set_scheduled_job (group_id : Z) (job : Job) : M unit :=
  s <- get ;;
  put (mk_state (deadlines s) (<[group_id := job]> (scheduled_jobs s)) (job_store s) (db s)).

(** [get_deadline_from_db]: the row of the group, or [None]. *)
Definition get_deadline_from_db (env : Env) (group_id : Z) : M (option date) :=
  emit (DbSelect group_id) ;;
  if db_ok env then s <- get ;; ret (db s !! group_id) else raise StorageError.

(** [set_deadline_in_db]: [INSERT ... ON CONFLICT (group_id) DO UPDATE]. *)
Definition set_deadline_in_db (env : Env) (group_id : Z) (d : date) : M unit :=
  emit (DbUpsert group_id d) ;;
  if db_ok env then
    s <- get ;;
    put (mk_state (deadlines s) (scheduled_jobs s) (job_store s) (<[group_id := d]> (db s)))
  else raise StorageError.

Definition has_id (id : string) (j : Job) : bool := String.eqb (job_id j) id.

(** [id=f"countdown_{group_id}"] *)
Definition countdown_id (group_id : Z) : string := "countdown_" +:+ str_of_int group_id.

Definition countdown_job (group_id : Z) : Job := mk_job (countdown_id group_id) group_id.

(** [scheduler.add_job(send_countdown, trigger=..., args=[group_id], id=...)]
    on a running scheduler, [replace_existing] left at its default: an id
    already in the job store is refused. *)
Definition add_job (group_id : Z) : M Job :=
  let job := countdown_job group_id in
  emit (JobAdd (job_id job) group_id) ;;
  s <- get ;;
  if existsb (has_id (job_id job)) (job_store s) then raise ConflictingIdError
  else
    put (mk_state (deadlines s) (scheduled_jobs s) (job_store s ++ [job]) (db s)) ;;
    ret job.

(** [job.remove()]: removes the job with that id from the job store; an id
    that is not there is an error. *)
Definition job_remove (job : Job) : M unit :=
  emit (JobRemove (job_id job)) ;;
  s <- get ;;
  if existsb (has_id (job_id job)) (job_store s) then
    put (mk_state (deadlines s) (scheduled_jobs s)
           (List.filter (fun j => negb (has_id (job_id job) j)) (job_store s)) (db s))
  else raise JobLookupError.

(** [update.message.reply_text(text, parse_mode="MarkdownV2")] *)
Definition reply_text (env : Env) (chat_id : Z) (text : string) : M unit :=
  emit (ReplyText chat_id text) ;;
  if reply_ok env then ret tt else raise TransportError.

(** [app.bot.send_message(chat_id=..., text=..., parse_mode=MARKDOWN_V2)] *)
Definition bot_send_message (env : Env) (chat_id : Z) (text : string) : M unit :=
  emit (SendMessage chat_id text) ;;
  if send_ok env then ret tt else raise TransportError.

(** [logger.error(...)] *)
Definition logger_error : M unit := emit LogError.

(** *** Message texts of the handlers *)

Definition welcome_text : string :=
  "🎉 Welcome to Deadline Countdown Bot! 🎉" +:+ nl +:+ nl +:+
  "📅 To get started, send me your deadline in this format:" +:+ nl +:+
  "`YYYY-MM-DD`" +:+ nl +:+ nl +:+
  "Example: `2025-12-31`" +:+ nl +:+ nl +:+
  "⏳ I'll send daily reminders to keep everyone on track! 🚀".

Definition already_passed_text : string :=
  "❌ That date has already passed\!" +:+ nl +:+
  "Set a future date like `2025-12-31`. ".

Definition invalid_format_text : string :=
  "❌ Invalid Format\!" +:+ nl +:+
  "Please use `YYYY-MM-DD` (e.g., `2025-12-31`).".

Definition confirmation_message (deadline_date : date) (days_left : Z) : string :=
  "✅ Deadline Set\! ✅" +:+ nl +:+ nl +:+
  "🗓 Date: `" +:+ isoformat deadline_date +:+ "`" +:+ nl +:+
  "⏳ Days Left: `" +:+ str_of_int days_left +:+ "`" +:+ nl +:+ nl +:+
  "📢 Daily reminders will arrive at 9:00 AM UTC\! ⏰".

(** *** The coroutines of [main.py] *)

Definition send_countdown (env : Env) (group_id : Z) : M unit :=
  s <- get ;;
  match deadlines s !! group_id with
  | None => ret tt
  | Some deadline =>
      let message := format_message (days_between deadline (today env)) in
      try_except (bot_send_message env group_id message) any_Exception logger_error
  end.

Definition ask_for_deadline (env : Env) (group_id : Z) : M unit :=
  let welcome_msg := clean_markdown welcome_text in
  try_except (bot_send_message env group_id welcome_msg) any_Exception logger_error.

(** Lines 196 to 208 of [handle_deadline]: remove the group's old job if
    [scheduled_jobs] has one, add the new job, record it. *)
Definition schedule (group_id : Z) : M unit :=
  s <- get ;;
  (match scheduled_jobs s !! group_id with
   | Some old => job_remove old
   | None => ret tt
   end) ;;
  job <- add_job group_id ;;
  set_scheduled_job group_id job.

(** [handle_deadline] on a message update: [group_id] is
    [update.message.chat_id] and [text] is [update.message.text]. *)
Definition handle_deadline {T : DigitTable} (env : Env) (group_id : Z) (text : string) : M unit :=
  try_except
    (match strptime text with
     | None => raise ValueError
     | Some deadline_date =>
         let days_left := days_between deadline_date (today env) in
         if days_left <? 0 then reply_text env group_id already_passed_text
         else
           set_deadline group_id deadline_date ;;
           set_deadline_in_db env group_id deadline_date ;;
           schedule group_id ;;
           reply_text env group_id
             (clean_markdown (confirmation_message deadline_date days_left)) ;;
           send_countdown env group_id
     end)
    only_ValueError
    (reply_text env group_id invalid_format_text).

(** [handle_deadline] on an update without [message], as an edited-message
    update is ([update.edited_message] holds the message then): line 177,
    before the [try], reads [update.message.chat_id] of [None]. *)
Definition handle_deadline_without_message : M unit := raise AttributeError.

(** The part of [update.my_chat_member] the handler reads. *)
Record ChatMemberUpdated : Set := mk_update {
  chat_id : Z;
  new_status : string;
  new_user_id : Z
}.

Definition status_is_member (status : string) : bool :=
  existsb (String.eqb status) ["member"; "administrator"]%string.

Definition new_chat_member (env : Env) (my_chat_member : option ChatMemberUpdated) : M unit :=
  match my_chat_member with
  | None => ret tt
  | Some chat_member =>
      if status_is_member (new_status chat_member)
         && (new_user_id chat_member =? bot_id env)
      then
        let group_id := chat_id chat_member in
        deadline_date <- get_deadline_from_db env group_id ;;
        (match deadline_date with
         | Some d => set_deadline group_id d
         | None => ret tt
         end) ;;
        ask_for_deadline env group_id
      else ret tt
  end.

(** [main] up to the start of polling: the module-level dictionaries are
    empty, the scheduler has just been started with an empty job store, and
    [create_db_pool] has connected ([CREATE TABLE IF NOT EXISTS] leaves the
    rows as they are) or raised. *)
Definition main (connect_ok : bool) (stored : gmap Z date) : exn + State :=
  if connect_ok then inr (mk_state ∅ ∅ [] stored) else inl StorageError.

(** *** Events

    What [setup_handlers] and the scheduler make the process react to: a
    new text message in a group and an edited one (the message handler of
    line 254 takes both kinds of update), an update of the bot's own chat
    membership, and a job of the scheduler that fires. *)

Inductive event : Type :=
  | DeadlineSubmitted (group_id : Z) (text : string)
  | MessageEdited (group_id : Z) (text : string)
  | MyChatMember (upd : option ChatMemberUpdated)
  | JobFired (group_id : Z).

(** The update the bot receives when it is added to group [group_id]. *)
Definition JoinedGroup (env : Env) (group_id : Z) : option ChatMemberUpdated :=
  Some (mk_update group_id "member" (bot_id env)).

Definition dispatch {T : DigitTable} (env : Env) (ev : event) : M unit :=
  match ev with
  | DeadlineSubmitted group_id text => handle_deadline env group_id text
  | MessageEdited _ _ => handle_deadline_without_message
  | MyChatMember upd => new_chat_member env upd
  | JobFired group_id => send_countdown env group_id
  end.

(** States the process can be in between two handler runs.  A run is taken
    as one step: the application hands updates to the handlers one after
    the other, a fired job only reads the state, and [handle_deadline] does
    not await between removing the old job and recording the new one. *)
Inductive reachable {T : DigitTable} : State -> Prop :=
  | reachable_start stored s : main true stored = inr s -> reachable s
  | reachable_step env ev s : reachable s -> reachable (final_state (dispatch env ev s)).

(** The state after a sequence of handler runs, each with what the
    outside world answers during it. *)
Definition run_events {T : DigitTable} (evs : list (Env * event)) (s : State) : State :=
  fold_left (fun s' '(env, ev) => final_state (dispatch env ev s')) evs s.

(** Live jobs of a group: jobs of the store that would call
    [send_countdown] for it. *)
Definition live_jobs (group_id : Z) (s : State) : list Job :=
  List.filter (fun j => job_args j =? group_id) (job_store s).

(** *** States and call sequences the properties are stated with *)

(** The job table is consistent: [scheduled_jobs] maps a group to its
    countdown job, which is in the job store; every job of the store is
    recorded under its group; the store holds no job twice. *)
Definition jobs_consistent (s : State) : Prop :=
  (forall g j, scheduled_jobs s !! g = Some j ->
     j = countdown_job g /\ In j (job_store s)) /\
  (forall j, In j (job_store s) -> scheduled_jobs s !! job_args j = Some j) /\
  NoDup (job_store s).

(** The job store once the group's job is taken out. *)
Definition without_job (g : Z) (store : list Job) : list Job :=
  List.filter (fun j => negb (has_id (countdown_id g) j)) store.

(** The state [schedule] leaves behind. *)
Definition scheduled (g : Z) (s : State) : State :=
  mk_state (deadlines s) (<[g := countdown_job g]> (scheduled_jobs s))
    (without_job g (job_store s) ++ [countdown_job g]) (db s).

(** The calls [schedule] makes: the removal, when the group has a job, comes
    before the addition. *)
Definition schedule_calls (g : Z) (s : State) : list action :=
  match scheduled_jobs s !! g with
  | Some _ => [JobRemove (countdown_id g); JobAdd (countdown_id g) g]
  | None => [JobAdd (countdown_id g) g]
  end.

Definition with_deadline (g : Z) (d : date) (s : State) : State :=
  mk_state (<[g := d]> (deadlines s)) (scheduled_jobs s) (job_store s) (db s).

Definition with_row (g : Z) (d : date) (s : State) : State :=
  mk_state (deadlines s) (scheduled_jobs s) (job_store s) (<[g := d]> (db s)).

(** What [send_countdown] calls for a group whose cached deadline is [d]. *)
Definition countdown_calls (env : Env) (g : Z) (d : date) : list action :=
  SendMessage g (format_message (days_between d (today env)))
  :: (if send_ok env then [] else [LogError]).

(** What [ask_for_deadline] calls. *)
Definition welcome_calls (env : Env) (g : Z) : list action :=
  SendMessage g (clean_markdown welcome_text)
  :: (if send_ok env then [] else [LogError]).

(** The event is a text submitted in group [g] that parses to a date not
    before today, while the store takes the upsert. *)
Definition saved_submission {T : DigitTable} (env : Env) (ev : event) (g : Z) : bool :=
  match ev with
  | DeadlineSubmitted group_id text =>
      (group_id =? g) && db_ok env &&
      match strptime text with
      | Some d => 0 <=? days_between d (today env)
      | None => false
      end
  | _ => false
  end.

(** The update is the bot itself becoming member or administrator. *)
Definition bot_joined (env : Env) (upd : ChatMemberUpdated) : Prop :=
  status_is_member (new_status upd) = true /\ new_user_id upd = bot_id env.

(** A sample environment: 3 November 2026, every outside call succeeds. *)
Definition sample_env : Env := mk_env (mk_date 2026 11 3) true true true 99.

(** The same day with the store unreachable. *)
Definition store_down_env : Env := mk_env (mk_date 2026 11 3) false true true 99.

Definition no_deadlines : gmap Z date := ∅.

End Bot.

Import Bot.

(** * Properties *)

(** ** Escaping *)

Section EscapeFacts.

Lemma special_is_not_backslash (c : ascii) :
  is_special c = true -> is_backslash c = false.
Proof.
  destruct c as [[] [] [] [] [] [] [] []]; vm_compute; congruence.
Qed.

Lemma backslash_is_not_special : is_special backslash = false.
Proof. reflexivity. Qed.

(** Nothing to escape: the scan copies the text, whatever precedes it. *)
Lemma sub_from_plain (text : string) :
  forall prev, has_special text = false -> sub_from prev text = text.
Proof.
  induction text as [|c rest IH]; intros prev H; [reflexivity|].
  unfold has_special in H; cbn in H.
  apply orb_false_elim in H as [Hc Hrest].
  cbn [sub_from]. rewrite Hc, andb_false_r. f_equal. now apply IH.
Qed.

(** Without backslashes the look-behind never blocks a substitution. *)
Lemma sub_from_no_backslash (text : string) :
  has_backslash text = false -> sub_from false text = escape_each text.
Proof.
  induction text as [|c rest IH]; intros H; [reflexivity|].
  unfold has_backslash in H; cbn in H.
  apply orb_false_elim in H as [Hc Hrest].
  cbn [sub_from negb andb]. rewrite Hc, (IH Hrest). reflexivity.
Qed.

(** In the output of a scan every reserved character already follows a
    backslash, so a second scan started in the same condition copies it. *)
Lemma sub_from_twice (text : string) :
  forall prev, sub_from prev (sub_from prev text) = sub_from prev text.
Proof.
  induction text as [|c rest IH]; intros prev; [reflexivity|].
  cbn [sub_from]. destruct (negb prev && is_special c) eqn:E.
  - apply andb_true_iff in E as [Hp Hc].
    cbn [sub_from].
    rewrite backslash_is_not_special, andb_false_r.
    replace (is_backslash backslash) with true by reflexivity.
    cbn [negb andb].
    now rewrite (special_is_not_backslash c Hc), IH.
  - cbn [sub_from]. rewrite E. now rewrite IH.
Qed.

End EscapeFacts.

(** C8. One application of [clean_markdown] to a text without reserved
    characters returns the text unchanged; one application to a text that
    holds every reserved character exactly once and no backslash puts
    exactly one backslash in front of each reserved character and leaves
    the other characters as they are. *)
Theorem clean_markdown_single_pass (text : string) :
  (has_special text = false -> clean_markdown text = text) /\
  (has_backslash text = false -> each_special_once text = true ->
   clean_markdown text = escape_each text).
Proof.
  split.
  - apply sub_from_plain.
  - intros Hb _. now apply sub_from_no_backslash.
Qed.

Lemma clean_markdown_single_pass_witness :
  clean_markdown "Deadline 2025 🚀" = "Deadline 2025 🚀"%string /\
  clean_markdown escape_chars = "\_\*\[\]\(\)\~\`\>\#\+\-\=\|\{\}\.\!"%string.
Proof.
  split.
  - exact (proj1 (clean_markdown_single_pass "Deadline 2025 🚀") eq_refl).
  - exact (proj2 (clean_markdown_single_pass escape_chars) eq_refl eq_refl).
Defined.

(** C9, as the code has it: escaping twice gives the same text as escaping
    once, for every input. *)
Theorem clean_markdown_idempotent (x : string) :
  clean_markdown (clean_markdown x) = clean_markdown x.
Proof. apply sub_from_twice. Qed.

(** C9, the statement of the specification refuted: no input separates one
    application of [clean_markdown] from two. *)
Lemma clean_markdown_twice_never_differs :
  ~ (exists x : string, clean_markdown (clean_markdown x) <> clean_markdown x).
Proof. intros [x Hx]. apply Hx, sub_from_twice. Qed.

(** ** Message tiers *)

(** Case analysis on the comparisons of an [if] chain; the impossible
    cases are closed by arithmetic before the branches are compared. *)
Ltac band_cases :=
  repeat match goal with
  | |- context [?a =? ?b] => destruct (Z.eqb_spec a b)
  | |- context [?a <=? ?b] => destruct (Z.leb_spec a b)
  end; cbn [andb orb]; first [lia | cbv [tone_message]; reflexivity].

Section ComposerFacts.

Lemma spec_band_nonneg (daysLeft : Z) :
  0 <= daysLeft ->
  spec_band daysLeft =
    if daysLeft =? 0 then Today
    else if daysLeft =? 1 then OneDay
    else if daysLeft <=? 3 then UrgentShort
    else if daysLeft <=? 7 then HighAlert
    else if daysLeft <=? 14 then ElevatedCaution
    else CalmLongRange.
Proof.
  intros H. unfold spec_band.
  repeat match goal with
  | |- context [?a =? ?b] => destruct (Z.eqb_spec a b)
  | |- context [?a <=? ?b] => destruct (Z.leb_spec a b)
  end; cbn [andb orb]; first [lia | reflexivity].
Qed.

(** The six bodies start differently, so the band can be read off the
    message. *)
Lemma tone_message_inj (t1 t2 : tone) (d1 d2 : Z) :
  tone_message t1 d1 = tone_message t2 d2 -> t1 = t2.
Proof.
  destruct t1, t2; try reflexivity; cbn; intros H; discriminate H.
Qed.

(** The chain of [format_message] and the band table agree from 0 on. *)
Lemma format_message_refines (daysLeft : Z) :
  0 <= daysLeft ->
  format_message daysLeft = tone_message (spec_band daysLeft) daysLeft.
Proof.
  intros H. rewrite (spec_band_nonneg _ H). unfold format_message. band_cases.
Qed.

End ComposerFacts.

(** C2. For a non-negative day count [format_message] picks the band of
    the specification's table: 0 gives the fixed "today" text, 1 the fixed
    "one day left" text, 2..3 the urgent short text, 4..7 the high alert
    text, 8..14 the elevated caution text, 15 and above the long-range
    text; the two fixed texts differ. *)
Theorem format_message_bands (daysLeft : Z) :
  0 <= daysLeft ->
  format_message daysLeft = tone_message (spec_band daysLeft) daysLeft /\
  (daysLeft = 0 -> format_message daysLeft = clean_markdown today_text) /\
  (daysLeft = 1 -> format_message daysLeft = clean_markdown one_day_text) /\
  (2 <= daysLeft <= 3 ->
   format_message daysLeft = clean_markdown (urgent_short_text daysLeft)) /\
  (4 <= daysLeft <= 7 ->
   format_message daysLeft = clean_markdown (high_alert_text daysLeft)) /\
  (8 <= daysLeft <= 14 ->
   format_message daysLeft = clean_markdown (elevated_caution_text daysLeft)) /\
  (15 <= daysLeft ->
   format_message daysLeft = clean_markdown (long_range_text daysLeft)) /\
  format_message 0 <> format_message 1.
Proof.
  intros H.
  split; [now apply format_message_refines|].
  repeat split; try (intros Hd; unfold format_message; band_cases).
  rewrite (format_message_refines 0), (format_message_refines 1) by lia.
  change (spec_band 0) with Today. change (spec_band 1) with OneDay.
  intros E. apply tone_message_inj in E. discriminate E.
Qed.

Lemma format_message_bands_witness :
  format_message 9 = tone_message ElevatedCaution 9.
Proof.
  exact (proj1 (format_message_bands 9 ltac:(lia))).
Defined.

(** C10. A negative day count falls into the third branch of
    [format_message]: the urgent short text with the negative number
    interpolated, which is neither the "today" text nor a text of its own. *)
Theorem format_message_negative (days : Z) :
  days < 0 ->
  format_message days = clean_markdown (urgent_short_text days) /\
  format_message days = tone_message UrgentShort days /\
  format_message days <> tone_message Today days.
Proof.
  intros H.
  assert (E : format_message days = tone_message UrgentShort days).
  { unfold format_message.
    destruct (Z.eqb_spec days 0); [lia|].
    destruct (Z.eqb_spec days 1); [lia|].
    destruct (Z.leb_spec days 3); [reflexivity|lia]. }
  repeat split; try exact E.
  rewrite E. intros E'. apply tone_message_inj in E'. discriminate E'.
Qed.

Lemma format_message_negative_witness :
  format_message (-5) = clean_markdown (urgent_short_text (-5)).
Proof.
  exact (proj1 (format_message_negative (-5) ltac:(lia))).
Defined.

(** ** The job table *)

Section JobTable.

Lemma str_of_int_inj (a b : Z) : str_of_int a = str_of_int b -> a = b.
Proof.
  unfold str_of_int. intros H.
  assert (N : forall z, Z.to_int z <> Decimal.Pos Decimal.Nil /\
                        Z.to_int z <> Decimal.Neg Decimal.Nil).
  { intros [|p|p]; cbn; split; try discriminate; intros E;
      injection E as E; now apply DecimalPos.Unsigned.to_uint_nonnil in E. }
  apply DecimalZ.to_int_inj.
  destruct (N a) as [Ha1 Ha2], (N b) as [Hb1 Hb2].
  pose proof (NilZero.isi _ Ha1 Ha2) as Ea.
  pose proof (NilZero.isi _ Hb1 Hb2) as Eb.
  rewrite H in Ea. congruence.
Qed.

Lemma append_inj_r (p a b : string) : p +:+ a = p +:+ b -> a = b.
Proof.
  induction p as [|c p IH]; intros H; [exact H|].
  apply IH. now injection H.
Qed.

Lemma countdown_id_inj (g g' : Z) : countdown_id g = countdown_id g' -> g = g'.
Proof.
  unfold countdown_id. intros H.
  now apply str_of_int_inj, (append_inj_r "countdown_").
Qed.

Lemma has_id_countdown (g g' : Z) :
  has_id (countdown_id g) (countdown_job g') = bool_decide (g' = g).
Proof.
  unfold has_id, countdown_job. cbn [job_id].
  destruct (String.eqb_spec (countdown_id g') (countdown_id g)) as [E|E];
    case_bool_decide; try reflexivity.
  - apply countdown_id_inj in E. contradiction.
  - subst. contradiction.
Qed.

Lemma stored_job_shape (s : State) (j : Job) :
  jobs_consistent s -> In j (job_store s) -> j = countdown_job (job_args j).
Proof.
  intros (H1 & H2 & _) Hj. apply H2 in Hj. now apply H1 in Hj.
Qed.

Lemma stored_job_has_id (s : State) (g : Z) (j : Job) :
  jobs_consistent s -> In j (job_store s) ->
  has_id (countdown_id g) j = bool_decide (job_args j = g).
Proof.
  intros Hs Hj. rewrite (stored_job_shape s j Hs Hj) at 1.
  apply has_id_countdown.
Qed.

Lemma without_job_absent (s : State) (g : Z) :
  jobs_consistent s -> scheduled_jobs s !! g = None ->
  existsb (has_id (countdown_id g)) (job_store s) = false /\
  without_job g (job_store s) = job_store s.
Proof.
  intros Hs Hg.
  assert (A : forall j, In j (job_store s) -> has_id (countdown_id g) j = false).
  { intros j Hj. rewrite (stored_job_has_id s g j Hs Hj).
    case_bool_decide as E; [|reflexivity].
    destruct Hs as (_ & H2 & _). apply H2 in Hj. congruence. }
  split.
  - destruct (existsb _ _) eqn:E; [|reflexivity].
    apply existsb_exists in E as (j & Hj & Hid). rewrite (A j Hj) in Hid.
    discriminate.
  - unfold without_job. revert A. generalize (job_store s) as l.
    induction l as [|j l IH]; intros A; [reflexivity|].
    cbn [List.filter]. rewrite (A j) by now left. cbn [negb].
    f_equal. apply IH. intros k Hk. apply A. now right.
Qed.

Lemma without_job_In (g : Z) (store : list Job) (j : Job) :
  In j (without_job g store) <-> In j store /\ has_id (countdown_id g) j = false.
Proof.
  unfold without_job. rewrite filter_In, negb_true_iff. reflexivity.
Qed.

Lemma without_job_no_id (g : Z) (store : list Job) :
  existsb (has_id (countdown_id g)) (without_job g store) = false.
Proof.
  destruct (existsb _ _) eqn:E; [|reflexivity].
  apply existsb_exists in E as (j & Hj & Hid).
  apply without_job_In in Hj as [_ Hj]. congruence.
Qed.

Lemma without_job_NoDup (g : Z) (store : list Job) :
  NoDup store -> NoDup (without_job g store).
Proof.
  unfold without_job. induction 1 as [|j l Hj Hl IH]; cbn [List.filter].
  - constructor.
  - destruct (negb _); [constructor|]; try assumption.
    rewrite list_elem_of_In, filter_In. rewrite list_elem_of_In in Hj. tauto.
Qed.

Lemma schedule_run (s : State) (g : Z) :
  jobs_consistent s ->
  schedule g s = (scheduled g s, schedule_calls g s, inr tt).
Proof.
  intros Hs. unfold schedule_calls, scheduled.
  destruct (scheduled_jobs s !! g) as [old|] eqn:Hg.
  - pose proof Hs as (H1 & _). destruct (H1 g old Hg) as [-> Hin].
    assert (E : existsb (has_id (countdown_id g)) (job_store s) = true).
    { apply existsb_exists. exists (countdown_job g). split; [assumption|].
      rewrite has_id_countdown. now case_bool_decide. }
    cbv [schedule bind get ret emit put raise job_remove add_job set_scheduled_job].
    rewrite Hg. cbn [job_id countdown_job job_store]. rewrite E.
    cbn [job_store scheduled_jobs deadlines db].
    fold (without_job g (job_store s)). rewrite (without_job_no_id g).
    reflexivity.
  - destruct (without_job_absent s g Hs Hg) as [E F].
    cbv [schedule bind get ret emit put raise job_remove add_job set_scheduled_job].
    rewrite Hg. cbn [job_id countdown_job job_store]. rewrite E, F.
    reflexivity.
Qed.

Lemma scheduled_consistent (s : State) (g : Z) :
  jobs_consistent s -> jobs_consistent (scheduled g s).
Proof.
  intros Hs. pose proof Hs as (H1 & H2 & H3).
  unfold jobs_consistent, scheduled. cbn [scheduled_jobs job_store].
  split; [|split].
  - intros g0 j H. destruct (decide (g = g0)) as [->|Hne].
    + rewrite lookup_insert_eq in H. injection H as <-.
      split; [reflexivity|]. apply in_or_app. right. now left.
    + rewrite lookup_insert_ne in H by assumption.
      destruct (H1 _ _ H) as [-> Hin]. split; [reflexivity|].
      apply in_or_app. left. apply without_job_In. split; [assumption|].
      rewrite has_id_countdown. case_bool_decide; congruence.
  - intros j Hj. apply in_app_or in Hj as [Hj|[<-|[]]].
    + apply without_job_In in Hj as [Hj Hid].
      rewrite (stored_job_has_id s g j Hs Hj) in Hid.
      case_bool_decide as E; [discriminate|].
      rewrite lookup_insert_ne by congruence. now apply H2.
    + cbn [job_args countdown_job]. apply lookup_insert_eq.
  - apply NoDup_app. split; [|split].
    + now apply without_job_NoDup.
    + intros j Hj Hj'. apply list_elem_of_In in Hj.
      apply without_job_In in Hj as [_ Hid].
      apply list_elem_of_In in Hj'. destruct Hj' as [<-|[]].
      rewrite has_id_countdown in Hid. case_bool_decide; congruence.
    + repeat constructor. intros H. apply list_elem_of_In in H. destruct H.
Qed.

End JobTable.

(** ** Runs of the handlers *)

Section HandlerRuns.

Context {T : DigitTable}.

(** Unfolds the monad and the primitives that do not touch the job store. *)
Ltac run :=
  cbv [handle_deadline new_chat_member send_countdown ask_for_deadline
       try_except bind ret raise emit get put
       set_deadline set_deadline_in_db get_deadline_from_db
       reply_text bot_send_message logger_error
       only_ValueError any_Exception];
  cbn [deadlines scheduled_jobs job_store db app].

Lemma consistent_same_jobs (s s' : State) :
  scheduled_jobs s' = scheduled_jobs s -> job_store s' = job_store s ->
  jobs_consistent s -> jobs_consistent s'.
Proof.
  unfold jobs_consistent. intros -> ->. exact id.
Qed.

Lemma send_countdown_run (env : Env) (s : State) (g : Z) :
  send_countdown env g s =
    (s, match deadlines s !! g with
        | Some d => countdown_calls env g d
        | None => []
        end, inr tt).
Proof.
  unfold countdown_calls. run.
  destruct (deadlines s !! g); [|reflexivity].
  destruct (send_ok env); reflexivity.
Qed.

(** An edited message: the handler stops at line 177. *)
Lemma handle_deadline_without_message_run (s : State) :
  handle_deadline_without_message s = (s, [], inl AttributeError).
Proof. reflexivity. Qed.

(** A submission that does not parse. *)
Lemma handle_deadline_malformed (env : Env) (s : State) (g : Z) (text : string) :
  strptime text = None ->
  handle_deadline env g text s =
    (s, [ReplyText g invalid_format_text],
     if reply_ok env then inr tt else inl TransportError).
Proof.
  intros Hp. run. rewrite Hp. cbn [app].
  destruct (reply_ok env); reflexivity.
Qed.

(** A submission that parses to a day before today. *)
Lemma handle_deadline_past (env : Env) (s : State) (g : Z) (text : string) (d : date) :
  strptime text = Some d -> days_between d (today env) < 0 ->
  handle_deadline env g text s =
    (s, [ReplyText g already_passed_text],
     if reply_ok env then inr tt else inl TransportError).
Proof.
  intros Hp Hd. run. rewrite Hp.
  destruct (Z.ltb_spec (days_between d (today env)) 0) as [_|]; [|lia].
  destruct (reply_ok env); reflexivity.
Qed.

(** A submission that parses to today or later, the store failing. *)
Lemma handle_deadline_unsaved (env : Env) (s : State) (g : Z) (text : string) (d : date) :
  strptime text = Some d -> 0 <= days_between d (today env) ->
  db_ok env = false ->
  handle_deadline env g text s =
    (with_deadline g d s, [CacheSet g d; DbUpsert g d], inl StorageError).
Proof.
  intros Hp Hd Hdb. run. rewrite Hp.
  destruct (Z.ltb_spec (days_between d (today env)) 0) as [|_]; [lia|].
  rewrite Hdb. reflexivity.
Qed.

(** A submission that parses to today or later, the store answering. *)
Lemma handle_deadline_saved (env : Env) (s : State) (g : Z) (text : string) (d : date) :
  strptime text = Some d -> 0 <= days_between d (today env) ->
  db_ok env = true -> jobs_consistent s ->
  handle_deadline env g text s =
    (scheduled g (with_row g d (with_deadline g d s)),
     [CacheSet g d; DbUpsert g d] ++ schedule_calls g s ++
     ReplyText g
       (clean_markdown (confirmation_message d (days_between d (today env))))
     :: (if reply_ok env then countdown_calls env g d else []),
     if reply_ok env then inr tt else inl TransportError).
Proof.
  intros Hp Hd Hdb Hs. run. rewrite Hp.
  destruct (Z.ltb_spec (days_between d (today env)) 0) as [|_]; [lia|].
  rewrite Hdb. cbn [deadlines scheduled_jobs job_store db app].
  rewrite schedule_run by (revert Hs; now apply consistent_same_jobs).
  unfold schedule_calls at 1. cbn [deadlines scheduled_jobs job_store db app].
  fold (schedule_calls g s).
  destruct (reply_ok env).
  - change (deadlines (scheduled g ?x)) with (deadlines x).
    cbn [deadlines]. rewrite lookup_insert_eq. unfold countdown_calls.
    destruct (send_ok env); cbn [app]; rewrite <- ?app_assoc; reflexivity.
  - cbn [app]. rewrite <- ?app_assoc. reflexivity.
Qed.

End HandlerRuns.

Section JoinRuns.

Lemma new_chat_member_run (env : Env) (s : State) (upd : ChatMemberUpdated) :
  bot_joined env upd -> db_ok env = true ->
  new_chat_member env (Some upd) s =
    match db s !! chat_id upd with
    | Some d =>
        (with_deadline (chat_id upd) d s,
         DbSelect (chat_id upd) :: CacheSet (chat_id upd) d
         :: welcome_calls env (chat_id upd), inr tt)
    | None => (s, DbSelect (chat_id upd) :: welcome_calls env (chat_id upd), inr tt)
    end.
Proof.
  intros [Hst Hid] Hdb. unfold welcome_calls.
  cbv [new_chat_member]. rewrite Hst, Hid, Z.eqb_refl. cbn [andb].
  cbv [ask_for_deadline try_except bind ret raise emit get put set_deadline
       get_deadline_from_db bot_send_message logger_error any_Exception].
  cbn [deadlines scheduled_jobs job_store db app]. rewrite Hdb.
  destruct (db s !! chat_id upd); destruct (send_ok env); reflexivity.
Qed.

(** No run of [new_chat_member] touches the job table. *)
Lemma new_chat_member_jobs (env : Env) (s : State) (upd : option ChatMemberUpdated) :
  scheduled_jobs (final_state (new_chat_member env upd s)) = scheduled_jobs s /\
  job_store (final_state (new_chat_member env upd s)) = job_store s.
Proof.
  destruct upd as [upd|]; [|split; reflexivity].
  cbv [new_chat_member].
  destruct (status_is_member (new_status upd) && (new_user_id upd =? bot_id env));
    [|split; reflexivity].
  cbv [ask_for_deadline try_except bind ret raise emit get put set_deadline
       get_deadline_from_db bot_send_message logger_error any_Exception final_state].
  destruct (db_ok env); [|split; reflexivity].
  cbn [fst snd].
  destruct (db s !! chat_id upd); destruct (send_ok env); split; reflexivity.
Qed.

End JoinRuns.

(** ** Reachable states *)

Section Reachability.

Context {T : DigitTable}.

Lemma filter_none {A} (f : A -> bool) (l : list A) :
  (forall x, In x l -> f x = false) -> List.filter f l = [].
Proof.
  induction l as [|a l IH]; intros H; [reflexivity|].
  cbn [List.filter]. rewrite (H a) by now left.
  apply IH. intros x Hx. apply H. now right.
Qed.

Lemma live_jobs_scheduled (s : State) (g : Z) :
  jobs_consistent s -> live_jobs g (scheduled g s) = [countdown_job g].
Proof.
  intros Hs. unfold live_jobs, scheduled. cbn [job_store].
  rewrite List.filter_app. cbn [List.filter job_args countdown_job].
  rewrite Z.eqb_refl.
  rewrite filter_none; [reflexivity|]. intros j Hj.
  apply without_job_In in Hj as [Hj Hid].
  rewrite (stored_job_has_id s g j Hs Hj) in Hid.
  case_bool_decide as E; [discriminate|]. now apply Z.eqb_neq.
Qed.

(** A duplicate-free list whose members all equal [x] has at most one
    element. *)
Lemma NoDup_constant_length {A} (x : A) (l : list A) :
  NoDup l -> (forall y, In y l -> y = x) -> (length l <= 1)%nat.
Proof.
  intros Hl Hx. destruct l as [|a [|b l]]; cbn; try lia.
  exfalso. inversion Hl as [|? ? Ha _]; subst. apply Ha.
  rewrite (Hx a), (Hx b) by (cbn; tauto). now left.
Qed.

Lemma consistent_at_most_one (s : State) (g : Z) :
  jobs_consistent s -> (length (live_jobs g s) <= 1)%nat.
Proof.
  intros Hs. apply (NoDup_constant_length (countdown_job g)).
  - unfold live_jobs. destruct Hs as (_ & _ & H3).
    apply NoDup_ListNoDup, List.NoDup_filter, NoDup_ListNoDup, H3.
  - intros j Hj. apply filter_In in Hj as [Hj Hg].
    apply Z.eqb_eq in Hg. rewrite (stored_job_shape s j Hs Hj). now rewrite Hg.
Qed.

Lemma dispatch_consistent (env : Env) (ev : event) (s : State) :
  jobs_consistent s -> jobs_consistent (final_state (dispatch env ev s)).
Proof.
  intros Hs. destruct ev as [g text|g text|upd|g]; cbn [dispatch].
  - destruct (strptime text) as [d|] eqn:Hp.
    + destruct (Z.lt_ge_cases (days_between d (today env)) 0) as [Hd|Hd].
      * now rewrite (handle_deadline_past env s g text d Hp Hd).
      * destruct (db_ok env) eqn:Hdb.
        -- rewrite (handle_deadline_saved env s g text d Hp Hd Hdb Hs).
           cbn [final_state fst]. apply scheduled_consistent.
           revert Hs. now apply consistent_same_jobs.
        -- rewrite (handle_deadline_unsaved env s g text d Hp Hd Hdb).
           cbn [final_state fst]. revert Hs. now apply consistent_same_jobs.
    + now rewrite (handle_deadline_malformed env s g text Hp).
  - now rewrite handle_deadline_without_message_run.
  - destruct (new_chat_member_jobs env s upd) as [E1 E2].
    revert Hs. now apply consistent_same_jobs.
  - now rewrite send_countdown_run.
Qed.

Lemma filter_filter_same {A} (f h : A -> bool) (l : list A) :
  (forall x, In x l -> f x = true -> h x = true) ->
  List.filter f (List.filter h l) = List.filter f l.
Proof.
  induction l as [|a l IH]; intros H; [reflexivity|].
  cbn [List.filter]. destruct (h a) eqn:Ha.
  - cbn [List.filter]. rewrite IH; [reflexivity|].
    intros x Hx. apply H. now right.
  - destruct (f a) eqn:Fa.
    + rewrite (H a) in Ha by (try left; easy). discriminate Ha.
    + apply IH. intros x Hx. apply H. now right.
Qed.

Lemma live_jobs_scheduled_other (s : State) (g g' : Z) :
  jobs_consistent s -> g' <> g -> live_jobs g' (scheduled g s) = live_jobs g' s.
Proof.
  intros Hs Hne. unfold live_jobs, scheduled. cbn [job_store].
  rewrite List.filter_app. cbn [List.filter job_args countdown_job].
  destruct (Z.eqb_spec g g') as [E|_]; [congruence|].
  rewrite app_nil_r. unfold without_job. apply filter_filter_same.
  intros j Hj Hg. apply Z.eqb_eq in Hg.
  rewrite (stored_job_has_id s g j Hs Hj). case_bool_decide; [congruence|].
  reflexivity.
Qed.

Lemma live_jobs_same_store (s s' : State) (g : Z) :
  job_store s' = job_store s -> live_jobs g s' = live_jobs g s.
Proof. unfold live_jobs. now intros ->. Qed.

(** A run that is no saved submission in group [g] leaves the live jobs of
    the group as they were. *)
Lemma dispatch_live_jobs (env : Env) (ev : event) (s : State) (g : Z) :
  jobs_consistent s -> saved_submission env ev g = false ->
  live_jobs g (final_state (dispatch env ev s)) = live_jobs g s.
Proof.
  intros Hs Hn. destruct ev as [g' text|g' text|upd|g']; cbn [dispatch].
  - cbn [saved_submission] in Hn.
    destruct (strptime text) as [d|] eqn:Hp.
    + destruct (Z.lt_ge_cases (days_between d (today env)) 0) as [Hd|Hd].
      * now rewrite (handle_deadline_past env s g' text d Hp Hd).
      * destruct (db_ok env) eqn:Hdb.
        -- rewrite (handle_deadline_saved env s g' text d Hp Hd Hdb Hs).
           cbn [final_state fst].
           destruct (Z.eqb_spec g' g) as [->|Hne].
           ++ cbn [andb] in Hn.
              destruct (Z.leb_spec 0 (days_between d (today env))); [discriminate|lia].
           ++ rewrite live_jobs_scheduled_other.
              ** reflexivity.
              ** revert Hs. now apply consistent_same_jobs.
              ** congruence.
        -- now rewrite (handle_deadline_unsaved env s g' text d Hp Hd Hdb).
    + now rewrite (handle_deadline_malformed env s g' text Hp).
  - now rewrite handle_deadline_without_message_run.
  - apply live_jobs_same_store. apply new_chat_member_jobs.
  - now rewrite send_countdown_run.
Qed.

Lemma reachable_consistent (s : State) : reachable s -> jobs_consistent s.
Proof.
  induction 1 as [stored s Hm|env ev s _ IH].
  - injection Hm as <-. split; [|split]; cbn [scheduled_jobs job_store].
    + intros g j H. now rewrite lookup_empty in H.
    + intros j [].
    + constructor.
  - now apply dispatch_consistent.
Qed.

Lemma run_events_snoc (evs : list (Env * event)) (env : Env) (ev : event) (s : State) :
  run_events (evs ++ [(env, ev)]) s = final_state (dispatch env ev (run_events evs s)).
Proof. unfold run_events. now rewrite fold_left_app. Qed.

Lemma run_events_reachable (evs : list (Env * event)) (s : State) :
  reachable s -> reachable (run_events evs s).
Proof.
  intros Hr. induction evs as [|[env ev] evs IH] using rev_ind; [exact Hr|].
  rewrite run_events_snoc. now apply reachable_step.
Qed.

(** Live jobs come from saved submissions only: a group that has a live
    job after a sequence of runs either had one before, or one of the runs
    was a saved submission in the group. *)
Lemma run_events_live_job (evs : list (Env * event)) (s : State) (g : Z) :
  reachable s -> live_jobs g (run_events evs s) <> [] ->
  live_jobs g s <> [] \/
  exists env ev, In (env, ev) evs /\ saved_submission env ev g = true.
Proof.
  intros Hr. induction evs as [|[env ev] evs IH] using rev_ind; [now left|].
  rewrite run_events_snoc. intros Hl.
  destruct (saved_submission env ev g) eqn:Hsub.
  - right. exists env, ev. split; [|exact Hsub]. apply in_or_app. right. now left.
  - rewrite dispatch_live_jobs in Hl;
      [|now apply reachable_consistent, run_events_reachable|exact Hsub].
    destruct (IH Hl) as [H|(env' & ev' & Hin & H)]; [now left|].
    right. exists env', ev'. split; [|exact H]. apply in_or_app. now left.
Qed.

End Reachability.

(** ** The confirmation text *)

Section ConfirmationText.

Lemma append_cons (c : ascii) (a b : string) :
  String c a +:+ b = String c (a +:+ b).
Proof. reflexivity. Qed.

Lemma append_assoc (a b c : string) : (a +:+ b) +:+ c = a +:+ b +:+ c.
Proof.
  induction a as [|x a IH]; [reflexivity|].
  now rewrite !append_cons, IH.
Qed.

(** The scan of a concatenation is the scan of the first part followed by
    the scan of the second, started where the first part ends. *)
Lemma sub_from_app (a b : string) :
  forall prev,
    sub_from prev (a +:+ b) =
    sub_from prev a +:+ sub_from (ends_with_backslash prev a) b.
Proof.
  induction a as [|c a IH]; intros prev; [reflexivity|].
  rewrite append_cons. cbn [sub_from ends_with_backslash]. rewrite IH.
  destruct (negb prev && is_special c); reflexivity.
Qed.

Lemma ends_with_backslash_app (a b : string) :
  forall prev,
    ends_with_backslash prev (a +:+ b) =
    ends_with_backslash (ends_with_backslash prev a) b.
Proof.
  induction a as [|c a IH]; intros prev; [reflexivity|].
  rewrite append_cons. cbn [ends_with_backslash]. apply IH.
Qed.

Lemma has_special_cons (c : ascii) (s : string) :
  has_special (String c s) = is_special c || has_special s.
Proof. reflexivity. Qed.

Lemma digits_not_special (u : Decimal.uint) :
  has_special (NilEmpty.string_of_uint u) = false.
Proof.
  induction u; cbn [NilEmpty.string_of_uint]; [reflexivity|..];
    rewrite has_special_cons, IHu; reflexivity.
Qed.

(** The decimal form of a non-negative number needs no escaping. *)
Lemma str_of_int_plain (n : Z) : 0 <= n -> has_special (str_of_int n) = false.
Proof.
  intros H. unfold str_of_int. destruct n as [|p|p]; [reflexivity| |lia].
  cbn [Z.to_int NilZero.string_of_int]. unfold NilZero.string_of_uint.
  destruct (Pos.to_uint p) eqn:E; try apply digits_not_special.
  reflexivity.
Qed.

(** The escaped confirmation shows the escaped date and, for a day count
    that is not negative, the count as it is. *)
Lemma confirmation_states_date_and_days (d : date) (days_left : Z) :
  0 <= days_left ->
  contains (clean_markdown (isoformat d))
    (clean_markdown (confirmation_message d days_left)) /\
  contains (str_of_int days_left)
    (clean_markdown (confirmation_message d days_left)).
Proof.
  intros Hd. unfold confirmation_message, clean_markdown.
  set (head := "✅ Deadline Set\! ✅" +:+ nl +:+ nl +:+ "🗓 Date: `").
  set (middle := "`" +:+ nl +:+ "⏳ Days Left: `").
  set (tail := "`" +:+ nl +:+ nl +:+
               "📢 Daily reminders will arrive at 9:00 AM UTC\! ⏰").
  assert (E : forall x y,
    "✅ Deadline Set\! ✅" +:+ nl +:+ nl +:+ "🗓 Date: `" +:+ x +:+ "`" +:+ nl +:+
    "⏳ Days Left: `" +:+ y +:+ "`" +:+ nl +:+ nl +:+
    "📢 Daily reminders will arrive at 9:00 AM UTC\! ⏰" =
    head +:+ x +:+ middle +:+ y +:+ tail) by reflexivity.
  rewrite E.
  assert (Hh : forall p, ends_with_backslash p head = false)
    by (intros p; reflexivity).
  assert (Hm : forall p, ends_with_backslash p middle = false)
    by (intros p; reflexivity).
  rewrite (sub_from_app head), Hh. split.
  - rewrite (sub_from_app (isoformat d)).
    match goal with
    | |- contains _ (?A +:+ _ +:+ ?T) => now exists A, T
    end.
  - rewrite (sub_from_app (isoformat d)), (sub_from_app middle), Hm.
    rewrite (sub_from_app (str_of_int days_left)).
    rewrite (sub_from_plain (str_of_int days_left)) by now apply str_of_int_plain.
    match goal with
    | |- contains _ (?A +:+ ?B +:+ ?C +:+ _ +:+ ?T) =>
        exists (A +:+ B +:+ C), T
    end.
    now rewrite !append_assoc.
Qed.

End ConfirmationText.

(** ** Deadline submissions *)

(** C1. A submission whose text parses to today or a later day, received in
    a reachable state while the store and the reply go through: the handler
    sets the cache entry, upserts the row, replaces the group's job (the old
    one, if any, removed first), replies with the confirmation, which shows
    the date and the days left, and then sends one countdown message, in
    this order; afterwards cache and store hold the date and the group has
    exactly one live job. *)
Theorem handle_deadline_accepts {T : DigitTable}
    (env : Env) (s : State) (g : Z) (text : string) (d : date) :
  reachable s ->
  strptime text = Some d ->
  0 <= days_between d (today env) ->
  db_ok env = true ->
  reply_ok env = true ->
  let r := handle_deadline env g text s in
  let days_left := days_between d (today env) in
  let confirmation := clean_markdown (confirmation_message d days_left) in
  outcome r = inr tt /\
  trace r =
    [CacheSet g d; DbUpsert g d] ++ schedule_calls g s ++
    [ReplyText g confirmation; SendMessage g (format_message days_left)] ++
    (if send_ok env then [] else [LogError]) /\
  contains (clean_markdown (isoformat d)) confirmation /\
  contains (str_of_int days_left) confirmation /\
  deadlines (final_state r) !! g = Some d /\
  db (final_state r) !! g = Some d /\
  live_jobs g (final_state r) = [countdown_job g].
Proof.
  intros Hr Hp Hd Hdb Hre r days_left confirmation.
  subst r days_left confirmation.
  pose proof (reachable_consistent s Hr) as Hs.
  destruct (confirmation_states_date_and_days d _ Hd) as [Hdate Hdays].
  rewrite (handle_deadline_saved env s g text d Hp Hd Hdb Hs), Hre.
  unfold outcome, trace, final_state, countdown_calls. cbn [fst snd].
  split; [reflexivity|]. split; [reflexivity|].
  split; [exact Hdate|]. split; [exact Hdays|].
  split; [|split].
  - cbn [deadlines scheduled with_row with_deadline]. apply lookup_insert_eq.
  - cbn [db scheduled with_row with_deadline]. apply lookup_insert_eq.
  - apply live_jobs_scheduled. revert Hs. now apply consistent_same_jobs.
Qed.

Lemma handle_deadline_accepts_witness :
  trace (handle_deadline (T := sample_digits) sample_env 1 "2099-01-01"
           (mk_state ∅ ∅ [] no_deadlines)) =
    [CacheSet 1 (mk_date 2099 1 1); DbUpsert 1 (mk_date 2099 1 1);
     JobAdd "countdown_1" 1;
     ReplyText 1 (clean_markdown (confirmation_message (mk_date 2099 1 1) 26357));
     SendMessage 1 (format_message 26357)].
Proof.
  refine (proj1 (proj2
    (handle_deadline_accepts sample_env _ 1 "2099-01-01" (mk_date 2099 1 1)
       (reachable_start no_deadlines _ eq_refl) _ _ eq_refl eq_refl))).
  - vm_compute. reflexivity.
  - vm_compute. discriminate.
Defined.

(** C4. A submission whose text does not parse, or parses to a day before
    today, changes nothing in the cache, the store and the job table, and
    makes one call: the reply with the format error in the first case, the
    reply that the date has passed in the second. *)
Theorem handle_deadline_rejects {T : DigitTable} (env : Env) (s : State) (g : Z) (text : string) :
  let r := handle_deadline env g text s in
  (strptime text = None ->
   final_state r = s /\ trace r = [ReplyText g invalid_format_text]) /\
  (forall d, strptime text = Some d -> days_between d (today env) < 0 ->
   final_state r = s /\ trace r = [ReplyText g already_passed_text]).
Proof.
  intros r. subst r. split.
  - intros Hp. rewrite (handle_deadline_malformed env s g text Hp).
    split; reflexivity.
  - intros d Hp Hd. rewrite (handle_deadline_past env s g text d Hp Hd).
    split; reflexivity.
Qed.

Lemma handle_deadline_rejects_witness :
  let s := mk_state ∅ ∅ [] no_deadlines in
  let run := handle_deadline (T := sample_digits) sample_env 1 in
  (final_state (run "not-a-date" s) = s /\
   trace (run "not-a-date" s) = [ReplyText 1 invalid_format_text]) /\
  (final_state (run "2000-01-01" s) = s /\
   trace (run "2000-01-01" s) = [ReplyText 1 already_passed_text]).
Proof.
  intros s run. split.
  - refine (proj1 (handle_deadline_rejects (T := sample_digits)
                     sample_env s 1 "not-a-date") _).
    vm_compute. reflexivity.
  - refine (proj2 (handle_deadline_rejects (T := sample_digits)
                     sample_env s 1 "2000-01-01")
              (mk_date 2000 1 1) _ _).
    + vm_compute. reflexivity.
    + vm_compute. reflexivity.
Defined.

(** C7, as the code has it: when the upsert fails, the handler ends with the
    storage error after two calls; no job is touched, nothing is replied or
    sent and the store keeps its rows, but the cache keeps the submitted
    date. *)
Theorem persist_failure_keeps_cache {T : DigitTable}
    (env : Env) (s : State) (g : Z) (text : string) (d : date) :
  strptime text = Some d ->
  0 <= days_between d (today env) ->
  db_ok env = false ->
  let r := handle_deadline env g text s in
  outcome r = inl StorageError /\
  trace r = [CacheSet g d; DbUpsert g d] /\
  final_state r = with_deadline g d s /\
  deadlines (final_state r) !! g = Some d /\
  db (final_state r) = db s /\
  scheduled_jobs (final_state r) = scheduled_jobs s /\
  job_store (final_state r) = job_store s.
Proof.
  intros Hp Hd Hdb r. subst r.
  rewrite (handle_deadline_unsaved env s g text d Hp Hd Hdb).
  unfold outcome, trace, final_state. cbn [fst snd].
  repeat split. cbn [deadlines with_deadline]. apply lookup_insert_eq.
Qed.

Lemma persist_failure_keeps_cache_witness :
  let r := handle_deadline (T := sample_digits) store_down_env 1 "2099-01-01"
             (mk_state ∅ ∅ [] no_deadlines) in
  outcome r = inl StorageError /\
  trace r = [CacheSet 1 (mk_date 2099 1 1); DbUpsert 1 (mk_date 2099 1 1)] /\
  final_state r =
    with_deadline 1 (mk_date 2099 1 1) (mk_state ∅ ∅ [] no_deadlines) /\
  deadlines (final_state r) !! 1 = Some (mk_date 2099 1 1) /\
  db (final_state r) = no_deadlines /\
  scheduled_jobs (final_state r) = ∅ /\
  job_store (final_state r) = [].
Proof.
  refine (persist_failure_keeps_cache store_down_env _ 1 "2099-01-01"
            (mk_date 2099 1 1) _ _ eq_refl).
  - vm_compute. reflexivity.
  - vm_compute. discriminate.
Defined.

(** C7, the statement of the specification refuted: with nothing cached or
    stored for group 1 and the store unreachable, submitting 2099-01-01
    leaves the date in the cache (no roll-back) and not in the store (no
    retry). *)
Lemma persist_failure_counterexample :
  let s := mk_state ∅ ∅ [] no_deadlines in
  let r := handle_deadline (T := sample_digits) store_down_env 1 "2099-01-01" s in
  ~ (deadlines (final_state r) !! 1 = deadlines s !! 1 \/
     db (final_state r) !! 1 = Some (mk_date 2099 1 1)).
Proof.
  intros s r. subst r.
  assert (Hp : strptime (T := sample_digits) "2099-01-01" = Some (mk_date 2099 1 1))
    by (vm_compute; reflexivity).
  assert (Hd : 0 <= days_between (mk_date 2099 1 1) (today store_down_env))
    by (vm_compute; discriminate).
  rewrite (handle_deadline_unsaved store_down_env s 1 _ _ Hp Hd eq_refl).
  unfold final_state, with_deadline, s, no_deadlines.
  cbn [fst deadlines db].
  rewrite lookup_insert_eq, !lookup_empty. intros [H|H]; discriminate H.
Qed.

(** ** One job per group *)

(** C3. In every reachable state a group has at most one live job; and
    scheduling a group twice in a row succeeds both times, the second time
    removing the job of the first before adding the new one, with exactly
    one live job for the group after each. *)
Theorem one_live_job_per_group {T : DigitTable} (s : State) (g : Z) :
  reachable s ->
  (length (live_jobs g s) <= 1)%nat /\
  let first := schedule g s in
  let second := schedule g (final_state first) in
  outcome first = inr tt /\
  outcome second = inr tt /\
  trace second = [JobRemove (countdown_id g); JobAdd (countdown_id g) g] /\
  live_jobs g (final_state first) = [countdown_job g] /\
  live_jobs g (final_state second) = [countdown_job g].
Proof.
  intros Hr. pose proof (reachable_consistent s Hr) as Hs.
  split; [now apply consistent_at_most_one|].
  intros first second. subst second first.
  pose proof (scheduled_consistent s g Hs) as Hs'.
  unfold outcome, trace, final_state.
  rewrite (schedule_run s g Hs). cbn [fst snd].
  rewrite (schedule_run (scheduled g s) g Hs'). cbn [fst snd].
  repeat split.
  - unfold schedule_calls, scheduled at 1. cbn [scheduled_jobs].
    now rewrite lookup_insert_eq.
  - now apply live_jobs_scheduled.
  - now apply live_jobs_scheduled.
Qed.

Lemma one_live_job_per_group_witness :
  let s := final_state
             (dispatch (T := sample_digits) sample_env
                (DeadlineSubmitted 1 "2099-01-01")
                (mk_state ∅ ∅ [] no_deadlines)) in
  (length (live_jobs 1 s) <= 1)%nat /\
  let first := schedule 1 s in
  let second := schedule 1 (final_state first) in
  outcome first = inr tt /\
  outcome second = inr tt /\
  trace second = [JobRemove (countdown_id 1); JobAdd (countdown_id 1) 1] /\
  live_jobs 1 (final_state first) = [countdown_job 1] /\
  live_jobs 1 (final_state second) = [countdown_job 1].
Proof.
  refine (one_live_job_per_group (T := sample_digits) _ 1 _).
  apply reachable_step. apply (reachable_start no_deadlines). reflexivity.
Defined.

(** ** Start-up and joining *)

(** C5, as the code has it: when [main] has connected, the cache and the
    job table are empty whatever rows the store holds, and the rows are
    untouched; no group has a live job.  From there on, whatever updates
    arrive and whatever jobs fire, a group that has a live job got it from
    a run of the message handler on a text submitted in that group that
    parsed to today or a later day while the store took the upsert; and
    every such submission does leave the group with its job. *)
Theorem main_installs_no_job {T : DigitTable} (stored : gmap Z date) (s : State) :
  main true stored = inr s ->
  (deadlines s = ∅ /\ scheduled_jobs s = ∅ /\ job_store s = [] /\ db s = stored) /\
  (forall g, live_jobs g s = []) /\
  (forall evs g,
     live_jobs g (run_events evs s) <> [] ->
     exists env ev, In (env, ev) evs /\ saved_submission env ev g = true) /\
  (forall evs env g text,
     saved_submission env (DeadlineSubmitted g text) g = true ->
     live_jobs g (run_events (evs ++ [(env, DeadlineSubmitted g text)]) s) =
       [countdown_job g]).
Proof.
  intros H.
  assert (Hr : reachable s) by exact (reachable_start stored s H).
  injection H as <-.
  split; [repeat split|]. split; [reflexivity|]. split.
  - intros evs g Hl.
    destruct (run_events_live_job evs _ g Hr Hl) as [Hn|Hex]; [|exact Hex].
    now contradiction Hn.
  - intros evs env g text Hsub. rewrite run_events_snoc. cbn [dispatch].
    pose proof (reachable_consistent _ (run_events_reachable evs _ Hr)) as Hs.
    cbn [saved_submission] in Hsub. rewrite Z.eqb_refl in Hsub. cbn [andb] in Hsub.
    destruct (db_ok env) eqn:Hdb; [|discriminate Hsub]. cbn [andb] in Hsub.
    destruct (strptime text) as [d|] eqn:Hp; [|discriminate Hsub].
    apply Z.leb_le in Hsub.
    rewrite (handle_deadline_saved env _ g text d Hp Hsub Hdb Hs).
    cbn [final_state fst]. apply live_jobs_scheduled.
    revert Hs. now apply consistent_same_jobs.
Qed.

Lemma main_installs_no_job_witness :
  let s := mk_state ∅ ∅ [] {[1 := mk_date 2099 1 1]} in
  (deadlines s = ∅ /\ scheduled_jobs s = ∅ /\ job_store s = [] /\
   db s = {[1 := mk_date 2099 1 1]}) /\
  (forall g, live_jobs g s = []) /\
  (forall evs g,
     live_jobs g (run_events (T := sample_digits) evs s) <> [] ->
     exists env ev,
       In (env, ev) evs /\ saved_submission (T := sample_digits) env ev g = true) /\
  (forall evs env g text,
     saved_submission (T := sample_digits) env (DeadlineSubmitted g text) g = true ->
     live_jobs g
       (run_events (T := sample_digits) (evs ++ [(env, DeadlineSubmitted g text)]) s) =
       [countdown_job g]).
Proof.
  exact (main_installs_no_job (T := sample_digits) {[1 := mk_date 2099 1 1]} _ eq_refl).
Defined.

(** C5, the statement of the specification refuted: with a deadline stored
    for group 1, the state [main] starts from has no job for group 1. *)
Lemma main_rehydration_counterexample :
  ~ (forall (stored : gmap Z date) (s : State) (g : Z) (d : date),
       main true stored = inr s -> stored !! g = Some d ->
       live_jobs g s <> []).
Proof.
  intros H.
  apply (H {[1 := mk_date 2099 1 1]} _ 1 (mk_date 2099 1 1) eq_refl).
  - apply lookup_singleton_eq.
  - reflexivity.
Qed.

(** C6, as the code has it: when the bot becomes member or administrator of
    a group and the store answers, a stored deadline is put in the cache
    and nothing else changes; stored deadline or not, the onboarding prompt
    is sent; the job table is left as it was. *)
Theorem new_chat_member_joined (env : Env) (s : State) (upd : ChatMemberUpdated) :
  bot_joined env upd ->
  db_ok env = true ->
  let g := chat_id upd in
  let r := new_chat_member env (Some upd) s in
  outcome r = inr tt /\
  (forall d, db s !! g = Some d ->
     final_state r = with_deadline g d s /\
     trace r = DbSelect g :: CacheSet g d :: welcome_calls env g) /\
  (db s !! g = None ->
     final_state r = s /\ trace r = DbSelect g :: welcome_calls env g) /\
  scheduled_jobs (final_state r) = scheduled_jobs s /\
  job_store (final_state r) = job_store s.
Proof.
  intros Hj Hdb g r. subst r g.
  rewrite (new_chat_member_run env s upd Hj Hdb).
  destruct (db s !! chat_id upd) as [d|];
    unfold outcome, trace, final_state; cbn [fst snd].
  - split; [reflexivity|].
    split; [intros d' [= <-]; split; reflexivity|].
    split; [discriminate|]. split; reflexivity.
  - split; [reflexivity|].
    split; [discriminate|].
    split; [intros _; split; reflexivity|]. split; reflexivity.
Qed.

Lemma new_chat_member_joined_witness :
  let s := mk_state ∅ ∅ [] {[1 := mk_date 2099 1 1]} in
  let r := new_chat_member sample_env (JoinedGroup sample_env 1) s in
  outcome r = inr tt /\
  (forall d, db s !! 1 = Some d ->
     final_state r = with_deadline 1 d s /\
     trace r = DbSelect 1 :: CacheSet 1 d :: welcome_calls sample_env 1) /\
  (db s !! 1 = None ->
     final_state r = s /\ trace r = DbSelect 1 :: welcome_calls sample_env 1) /\
  scheduled_jobs (final_state r) = scheduled_jobs s /\
  job_store (final_state r) = job_store s.
Proof.
  refine (new_chat_member_joined sample_env _ (mk_update 1 "member" 99) _ eq_refl).
  split; reflexivity.
Defined.

(** C6, the statement of the specification refuted: the bot joins group 1,
    for which the store holds a deadline; afterwards the group has no live
    job, and the onboarding prompt has been sent. *)
Lemma join_with_stored_deadline_counterexample :
  let s := mk_state ∅ ∅ [] {[1 := mk_date 2099 1 1]} in
  let r := new_chat_member sample_env (JoinedGroup sample_env 1) s in
  db s !! 1 = Some (mk_date 2099 1 1) /\
  live_jobs 1 (final_state r) = [] /\
  In (SendMessage 1 (clean_markdown welcome_text)) (trace r).
Proof.
  intros s r. split; [apply lookup_singleton_eq|].
  subst r.
  change (JoinedGroup sample_env 1) with (Some (mk_update 1 "member" 99)).
  rewrite (new_chat_member_run sample_env s (mk_update 1 "member" 99))
    by (try split; reflexivity).
  cbn [chat_id]. unfold s at 1 3. cbn [db]. rewrite lookup_singleton_eq.
  unfold final_state, trace, welcome_calls. cbn [fst snd].
  split; [reflexivity|]. right. right. left. reflexivity.
Qed.

(** ** Sample runs *)

Example strptime_samples :
  map (strptime (T := sample_digits))
      ["2099-01-01"; "not-a-date"; "2000-01-01"; "2099-1-1";
       "2099-02-29"; "2096-02-29"; "2099-01-01 "; "0000-01-01"]%string =
  [Some (mk_date 2099 1 1); None; Some (mk_date 2000 1 1);
   Some (mk_date 2099 1 1); None; Some (mk_date 2096 2 29); None; None].
Proof. vm_compute. reflexivity. Qed.

(** Decimal digits outside ASCII are digits to [\d] and to [int], in the
    year and in the second place of a day from 10 to 29; the month and the
    other day forms take ["0"] to ["9"] only. *)
Example strptime_unicode_samples :
  map (strptime (T := sample_digits))
      ["２０９９-01-01"; "2099-01-1２"; "2026-11-1٣"; "2099-０1-01";
       "2099-01-０1"; "2099-01-3１"; "2099-01-２1"; "2099-01-0é"]%string =
  [Some (mk_date 2099 1 1); Some (mk_date 2099 1 12); Some (mk_date 2026 11 13);
   None; None; None; None; None].
Proof. vm_compute. reflexivity. Qed.

(** A submission written with fullwidth digits is accepted as the date it
    denotes. *)
Example unicode_submission_sample :
  let r := handle_deadline (T := sample_digits) sample_env 1 "２０９９-01-01"
             (mk_state ∅ ∅ [] no_deadlines) in
  deadlines (final_state r) !! 1 = Some (mk_date 2099 1 1) /\
  live_jobs 1 (final_state r) = [countdown_job 1].
Proof. vm_compute. split; reflexivity. Qed.

Example confirmation_sample :
  clean_markdown (confirmation_message (mk_date 2099 1 1) 26357) =
  "✅ Deadline Set\! ✅" +:+ nl +:+ nl +:+
  "🗓 Date: \`2099\-01\-01\`" +:+ nl +:+
  "⏳ Days Left: \`26357\`" +:+ nl +:+ nl +:+
  "📢 Daily reminders will arrive at 9:00 AM UTC\! ⏰".
Proof. vm_compute. reflexivity. Qed.

Example overdue_sample :
  format_message (-5) =
  "🔔 \-5 DAYS LEFT\! 🔔" +:+ nl +:+ nl +:+
  "❗ Urgent Action Needed\! ❗" +:+ nl +:+
  "▪️ Prioritize critical tasks\!" +:+ nl +:+
  "▪️ No distractions\!" +:+ nl +:+
  "▪️ Stay focused\! 🎯".
Proof. vm_compute. reflexivity. Qed.

Example escape_twice_sample :
  clean_markdown "a.b\.c!" = "a\.b\.c\!"%string /\
  clean_markdown (clean_markdown "a.b\.c!") = "a\.b\.c\!"%string.
Proof. split; vm_compute; reflexivity. Qed.

(** * Further properties *)

(** ** What [clean_markdown] guarantees *)

Section EscapeMore.

Lemma escaped_from_sub_from (text : string) :
  forall prev, escaped_from prev (sub_from prev text) = true.
Proof.
  induction text as [|c rest IH]; intros prev; [reflexivity|].
  cbn [sub_from]. destruct (negb prev && is_special c) eqn:E.
  - apply andb_true_iff in E as [_ Hc].
    cbn [escaped_from]. rewrite backslash_is_not_special.
    replace (is_backslash backslash) with true by reflexivity.
    rewrite (special_is_not_backslash c Hc), IH, orb_true_r. reflexivity.
  - cbn [escaped_from]. rewrite IH, andb_true_r.
    destruct prev, (is_special c); try reflexivity. discriminate E.
Qed.

Lemma sub_from_fixed_iff (text : string) :
  forall prev, sub_from prev text = text <-> escaped_from prev text = true.
Proof.
  induction text as [|c rest IH]; intros prev; [cbn; tauto|].
  cbn [sub_from escaped_from].
  destruct (negb prev && is_special c) eqn:E.
  - apply andb_true_iff in E as [Hp Hc]. apply negb_true_iff in Hp.
    rewrite Hc, Hp. cbn [negb orb andb]. split; [|discriminate].
    intros H. injection H as H _. apply special_is_not_backslash in Hc.
    unfold is_backslash in Hc. rewrite <- H, Ascii.eqb_refl in Hc.
    discriminate Hc.
  - replace (negb (is_special c) || prev) with true
      by (destruct prev, (is_special c); try reflexivity; discriminate E).
    cbn [andb]. rewrite <- IH. split; [now intros [= ->]|now intros ->].
Qed.

Lemma strip_sub_from (text : string) :
  forall prev, strip_backslashes (sub_from prev text) = strip_backslashes text.
Proof.
  induction text as [|c rest IH]; intros prev; [reflexivity|].
  cbn [sub_from]. destruct (negb prev && is_special c) eqn:E.
  - apply andb_true_iff in E as [_ Hc].
    cbn [strip_backslashes].
    replace (is_backslash backslash) with true by reflexivity.
    now rewrite IH.
  - cbn [strip_backslashes]. now rewrite IH.
Qed.

Lemma strip_plain (text : string) :
  has_backslash text = false -> strip_backslashes text = text.
Proof.
  induction text as [|c rest IH]; intros H; [reflexivity|].
  unfold has_backslash in H. cbn in H. apply orb_false_elim in H as [Hc Hr].
  cbn [strip_backslashes]. now rewrite Hc, (IH Hr).
Qed.

Lemma length_sub_from (text : string) :
  forall prev,
    (String.length text <= String.length (sub_from prev text)
     <= 2 * String.length text)%nat.
Proof.
  induction text as [|c rest IH]; intros prev; [cbn; lia|].
  cbn [sub_from]. specialize (IH (is_backslash c)).
  destruct (negb prev && is_special c); cbn [String.length]; lia.
Qed.

Lemma clean_markdown_inj_aux (x y : string) :
  clean_markdown x = clean_markdown y ->
  has_backslash x = false -> has_backslash y = false -> x = y.
Proof.
  intros H Hx Hy.
  rewrite <- (strip_plain x Hx), <- (strip_plain y Hy).
  rewrite <- (strip_sub_from x false), <- (strip_sub_from y false).
  unfold clean_markdown in H. now rewrite H.
Qed.

End EscapeMore.

(** X1. In the result of [clean_markdown] every reserved character stands
    right after a backslash, whatever the input. *)
Theorem clean_markdown_all_escaped (text : string) :
  all_escaped (clean_markdown text) = true.
Proof. apply escaped_from_sub_from. Qed.

(** X2. [clean_markdown] only inserts backslashes: with the backslashes
    taken out, the result and the input are the same text, so no other
    character is dropped, changed or moved. *)
Theorem clean_markdown_only_inserts_backslashes (text : string) :
  strip_backslashes (clean_markdown text) = strip_backslashes text.
Proof. apply strip_sub_from. Qed.

(** X3. [clean_markdown] leaves a text as it is exactly when every reserved
    character of the text already stands right after a backslash. *)
Theorem clean_markdown_fixed_iff (text : string) :
  clean_markdown text = text <-> all_escaped text = true.
Proof. apply sub_from_fixed_iff. Qed.

Lemma clean_markdown_fixed_iff_witness :
  clean_markdown "Deadline Set\!" = "Deadline Set\!"%string.
Proof.
  exact (proj2 (clean_markdown_fixed_iff "Deadline Set\!") eq_refl).
Defined.

(** X4. The result of [clean_markdown] is at least as long as the input and
    at most twice as long. *)
Theorem clean_markdown_length (text : string) :
  (String.length text <= String.length (clean_markdown text)
   <= 2 * String.length text)%nat.
Proof. apply length_sub_from. Qed.

(** X5. Escaping a concatenation whose first part does not end in a
    backslash is escaping the two parts separately. *)
Theorem clean_markdown_app (a b : string) :
  ends_with_backslash false a = false ->
  clean_markdown (a +:+ b) = clean_markdown a +:+ clean_markdown b.
Proof.
  intros H. unfold clean_markdown. now rewrite sub_from_app, H.
Qed.

Lemma clean_markdown_app_witness :
  clean_markdown ("Date: " +:+ "2025-12-31") =
  clean_markdown "Date: " +:+ clean_markdown "2025-12-31".
Proof. exact (clean_markdown_app "Date: " "2025-12-31" eq_refl). Defined.

(** X6. Two texts without backslashes that escape to the same text are the
    same text. *)
Theorem clean_markdown_inj (x y : string) :
  has_backslash x = false -> has_backslash y = false ->
  clean_markdown x = clean_markdown y -> x = y.
Proof.
  intros Hx Hy H. now apply clean_markdown_inj_aux.
Qed.

Lemma clean_markdown_inj_witness : "a.b (c)"%string = "a.b (c)"%string.
Proof.
  exact (clean_markdown_inj "a.b (c)" "a.b (c)" eq_refl eq_refl eq_refl).
Defined.

(** ** Dates *)

Section DateFacts.

Lemma valid_date_bounds (d : date) :
  valid_date d ->
  1 <= year d <= 9999 /\ 1 <= month d <= 12 /\
  1 <= day d <= days_in_month (year d) (month d).
Proof.
  unfold valid_date, check_date_fields. rewrite !andb_true_iff, !Z.leb_le. lia.
Qed.

(** Splits a month known to lie in 1..12 into its twelve values. *)
Ltac each_month m :=
  destruct m as [|m|m]; try lia;
  do 4 (try destruct m as [m|m|]); try lia.

(** Closes a goal about concrete months: by arithmetic on the hypotheses,
    or by evaluating the month tables. *)
Ltac by_tables :=
  first [lia | vm_compute; repeat split; congruence].

Lemma days_in_month_range (y m : Z) :
  1 <= m <= 12 -> 28 <= days_in_month y m <= 31.
Proof.
  intros H. unfold days_in_month.
  each_month m; destruct (is_leap y); by_tables.
Qed.

Lemma days_before_month_mono (y m m' : Z) :
  1 <= m -> m < m' -> m' <= 12 ->
  days_before_month y m + days_in_month y m <= days_before_month y m'.
Proof.
  intros H1 H2 H3. unfold days_before_month, days_in_month.
  each_month m; each_month m'; destruct (is_leap y); by_tables.
Qed.

Lemma days_before_month_last (y m : Z) :
  1 <= m <= 12 ->
  days_before_month y m + days_in_month y m <= year_length y.
Proof.
  intros H. unfold days_before_month, days_in_month, year_length.
  each_month m; destruct (is_leap y); by_tables.
Qed.

Lemma days_before_year_next (y : Z) :
  days_before_year (y + 1) = days_before_year y + year_length y.
Proof.
  unfold days_before_year, year_length, is_leap.
  replace (y + 1 - 1) with y by lia.
  destruct (Z.eqb_spec (y mod 4) 0), (Z.eqb_spec (y mod 100) 0),
    (Z.eqb_spec (y mod 400) 0); cbn [negb orb andb];
    Z.div_mod_to_equations; lia.
Qed.

Lemma year_length_pos (y : Z) : 365 <= year_length y.
Proof. unfold year_length. destruct (is_leap y); lia. Qed.

Lemma days_before_year_mono (y y' : Z) :
  y < y' -> days_before_year y + year_length y <= days_before_year y'.
Proof.
  intros H. replace y' with (y + 1 + Z.of_nat (Z.to_nat (y' - y - 1))) by lia.
  generalize (Z.to_nat (y' - y - 1)) as n. induction n as [|n IH].
  - rewrite Z.add_0_r, days_before_year_next. lia.
  - replace (y + 1 + Z.of_nat (S n)) with (y + 1 + Z.of_nat n + 1) by lia.
    rewrite days_before_year_next.
    pose proof (year_length_pos (y + 1 + Z.of_nat n)). lia.
Qed.

Lemma toordinal_before (a b : date) :
  valid_date a -> valid_date b -> date_before a b -> toordinal a < toordinal b.
Proof.
  intros Ha Hb. apply valid_date_bounds in Ha, Hb.
  destruct a as [ya ma da], b as [yb mb db0]. cbn [year month day] in *.
  unfold date_before, toordinal. cbn [year month day].
  intros [Hy|[-> [Hm|[-> Hd]]]].
  - pose proof (days_before_year_mono ya yb Hy).
    pose proof (days_before_month_last ya ma ltac:(lia)).
    assert (0 <= days_before_month yb mb).
    { unfold days_before_month. destruct Hb as (_ & Hb & _).
      each_month mb; destruct (is_leap yb); by_tables. }
    lia.
  - pose proof (days_before_month_mono yb ma mb ltac:(lia) Hm ltac:(lia)). lia.
  - lia.
Qed.

End DateFacts.

(** X7. For two valid dates, the day difference the handler computes is
    negative exactly when the first date comes before the second in the
    calendar, and zero exactly when they are the same date. *)
Theorem days_between_sign (a b : date) :
  valid_date a -> valid_date b ->
  (days_between a b < 0 <-> date_before a b) /\
  (days_between a b = 0 <-> a = b).
Proof.
  intros Ha Hb. unfold days_between.
  assert (T : date_before a b \/ a = b \/ date_before b a).
  { destruct a as [ya ma da], b as [yb mb db0]. unfold date_before.
    cbn [year month day].
    destruct (Z.lt_trichotomy ya yb) as [|[->|]]; [tauto| |tauto].
    destruct (Z.lt_trichotomy ma mb) as [|[->|]]; [tauto| |tauto].
    destruct (Z.lt_trichotomy da db0) as [|[->|]]; tauto. }
  pose proof (toordinal_before a b Ha Hb) as Hab.
  pose proof (toordinal_before b a Hb Ha) as Hba.
  split; split; intros H.
  - destruct T as [T|[->|T]]; [assumption|lia|specialize (Hba T); lia].
  - specialize (Hab H). lia.
  - destruct T as [T|[->|T]]; [specialize (Hab T); lia|reflexivity|
                                specialize (Hba T); lia].
  - subst. lia.
Qed.

Lemma days_between_sign_witness :
  (days_between (mk_date 2000 1 1) (mk_date 2026 11 3) < 0 <->
   date_before (mk_date 2000 1 1) (mk_date 2026 11 3)) /\
  (days_between (mk_date 2000 1 1) (mk_date 2026 11 3) = 0 <->
   mk_date 2000 1 1 = mk_date 2026 11 3).
Proof.
  exact (days_between_sign (mk_date 2000 1 1) (mk_date 2026 11 3)
           eq_refl eq_refl).
Defined.

(** ** Parsing what was printed *)

Section ParseFacts.

Context {T : DigitTable}.

Lemma characters_cons (c c' : ascii) (s : string) :
  characters (String c (String c' s)) =
    if is_continuation c'
    then match characters (String c' s) with
         | ch :: tl => String c ch :: tl
         | [] => [String c EmptyString]
         end
    else String c EmptyString :: characters (String c' s).
Proof. reflexivity. Qed.

Lemma characters_not_nil (c : ascii) (s : string) : characters (String c s) <> [].
Proof.
  destruct s as [|c' s]; [discriminate|]. rewrite characters_cons.
  destruct (is_continuation c'); [|discriminate].
  destruct (characters (String c' s)); discriminate.
Qed.

(** A text cut before a byte that starts a character: the characters of
    the two parts. *)
Lemma characters_app (a : string) (c : ascii) (r : string) :
  is_continuation c = false ->
  characters (a +:+ String c r) = characters a ++ characters (String c r).
Proof.
  intros Hc. induction a as [|x a IH]; [reflexivity|].
  rewrite append_cons. destruct a as [|y a].
  - change (EmptyString +:+ String c r) with (String c r).
    rewrite characters_cons, Hc. reflexivity.
  - rewrite append_cons in *. rewrite (characters_cons x y a).
    rewrite (characters_cons x y (a +:+ String c r)), IH.
    destruct (is_continuation y); [|reflexivity].
    destruct (characters (String y a)) as [|ch tl] eqn:E; [|reflexivity].
    now apply characters_not_nil in E.
Qed.

Lemma characters_app_dash (a r : string) :
  characters (a +:+ "-" +:+ r) = characters a ++ characters ("-" +:+ r).
Proof. exact (characters_app a "-" r eq_refl). Qed.

Lemma match_seq_app (p : list cls) (rest : list string) :
  forall s m r,
    match_seq p s = Some (m, r) -> match_seq p (s ++ rest) = Some (m, r ++ rest).
Proof.
  induction p as [|k p IH]; intros s m r H; cbn [match_seq] in *.
  - now injection H as <- <-.
  - destruct s as [|c s]; [discriminate|]. cbn [app].
    destruct (k c); [|discriminate].
    destruct (match_seq p s) as [[m' r']|] eqn:E; [|discriminate].
    cbn in H. injection H as <- <-. now rewrite (IH s m' r' E).
Qed.

(** The regular expression is the year group followed by the rest. *)
Lemma format_regex_match_split (s : list string) :
  format_regex_match s =
    '(Y, r1) ← match_seq Y_group s;
    '(m, d, r5) ← month_day_match r1;
    Some (Y, m, d, r5).
Proof.
  unfold format_regex_match, month_day_match.
  destruct (match_seq Y_group s) as [[Y r1]|]; [|reflexivity]. cbn [mbind option_bind].
  destruct (match_seq [lit "-"] r1) as [[h r2]|]; [|reflexivity].
  cbn [mbind option_bind].
  induction (alternatives m_group r2) as [|[m r3] l IH]; [reflexivity|].
  cbn [first_some].
  destruct (match_seq [lit "-"] r3) as [[h' r4]|]; [|exact IH].
  cbn [mbind option_bind].
  destruct (head (alternatives d_group r4)) as [[d r5]|]; [reflexivity|exact IH].
Qed.

Lemma year_text (y : Z) :
  1 <= y <= 9999 ->
  match_seq Y_group (characters (zero_padded 4 y)) =
    Some (characters (zero_padded 4 y), []) /\
  int_of_group (characters (zero_padded 4 y)) = y.
Proof.
  intros H.
  assert (A : forallb year_text_ok (map Z.of_nat (seq 1 (Z.to_nat 9999))) = true)
    by (vm_compute; reflexivity).
  assert (I : In y (map Z.of_nat (seq 1 (Z.to_nat 9999)))).
  { apply in_map_iff. exists (Z.to_nat y). split; [lia|]. apply in_seq. lia. }
  rewrite forallb_forall in A. specialize (A y I).
  unfold year_text_ok in A.
  destruct (match_seq Y_group (characters (zero_padded 4 y))) as [[Y r]|];
    [|discriminate A].
  rewrite !andb_true_iff, !bool_decide_eq_true, Z.eqb_eq in A.
  destruct A as [[-> ->] HY]. split; [reflexivity|exact HY].
Qed.

(** Splits a number known to lie in 1..31 into its values. *)
Ltac each_value n :=
  destruct n as [|n|n]; try lia;
  do 5 (try destruct n as [n|n|]); try lia.

Lemma month_day_padded (m dd : Z) :
  1 <= m <= 12 -> 1 <= dd <= 31 ->
  month_day_match (characters ("-" +:+ zero_padded 2 m +:+ "-" +:+ zero_padded 2 dd)) =
    Some (characters (zero_padded 2 m), characters (zero_padded 2 dd), []) /\
  int_of_group (characters (zero_padded 2 m)) = m /\
  int_of_group (characters (zero_padded 2 dd)) = dd.
Proof.
  intros Hm Hd. each_value m; each_value dd; vm_compute; repeat split.
Qed.

Lemma month_day_unpadded (m dd : Z) :
  1 <= m <= 12 -> 1 <= dd <= 31 ->
  month_day_match (characters ("-" +:+ str_of_int m +:+ "-" +:+ str_of_int dd)) =
    Some (characters (str_of_int m), characters (str_of_int dd), []) /\
  int_of_group (characters (str_of_int m)) = m /\
  int_of_group (characters (str_of_int dd)) = dd.
Proof.
  intros Hm Hd. each_value m; each_value dd; vm_compute; repeat split.
Qed.

(** A text made of the year text and a rest the month-day part accepts
    parses to the date. *)
Lemma strptime_of_parts (d : date) (M D : string) :
  valid_date d ->
  month_day_match (characters ("-" +:+ M +:+ "-" +:+ D)) =
    Some (characters M, characters D, []) ->
  int_of_group (characters M) = month d -> int_of_group (characters D) = day d ->
  strptime (zero_padded 4 (year d) +:+ "-" +:+ M +:+ "-" +:+ D) = Some d.
Proof.
  intros Hv Hmd HM HD.
  destruct (year_text (year d)) as [HY Hy];
    [apply valid_date_bounds in Hv; lia|].
  unfold strptime. rewrite characters_app_dash, format_regex_match_split.
  rewrite (match_seq_app Y_group _ _ _ _ HY).
  cbn [mbind option_bind app].
  rewrite Hmd. cbn [mbind option_bind].
  rewrite Hy, HM, HD. unfold valid_date in Hv. rewrite Hv.
  now destruct d.
Qed.

End ParseFacts.

(** X8. The date as the confirmation prints it parses back to the same
    date: for every valid date, [strptime (str d)] is [d]. *)
Theorem strptime_isoformat {T : DigitTable} (d : date) :
  valid_date d -> strptime (isoformat d) = Some d.
Proof.
  intros Hv. pose proof (valid_date_bounds d Hv) as (_ & Hm & Hd).
  pose proof (days_in_month_range (year d) (month d) Hm).
  destruct (month_day_padded (month d) (day d)) as (H1 & H2 & H3); [lia..|].
  now apply strptime_of_parts.
Qed.

Lemma strptime_isoformat_witness :
  strptime (T := sample_digits) (isoformat (mk_date 2096 2 29)) = Some (mk_date 2096 2 29).
Proof. exact (strptime_isoformat (mk_date 2096 2 29) eq_refl). Defined.

(** X9. The parser takes more than the form YYYY-MM-DD: for every valid
    date, the text with month and day written without leading zero parses
    to the date as well. *)
Theorem strptime_unpadded {T : DigitTable} (d : date) :
  valid_date d -> strptime (unpadded d) = Some d.
Proof.
  intros Hv. pose proof (valid_date_bounds d Hv) as (_ & Hm & Hd).
  pose proof (days_in_month_range (year d) (month d) Hm).
  destruct (month_day_unpadded (month d) (day d)) as (H1 & H2 & H3); [lia..|].
  now apply strptime_of_parts.
Qed.

Lemma strptime_unpadded_witness :
  strptime (T := sample_digits) (unpadded (mk_date 2099 1 5)) = Some (mk_date 2099 1 5).
Proof. exact (strptime_unpadded (mk_date 2099 1 5) eq_refl). Defined.

(** ** More on the handlers *)

Section HandlerMore.

Context {T : DigitTable}.

(** The four ways a run of [handle_deadline] can go. *)
Lemma handle_deadline_cases (env : Env) (s : State) (g : Z) (text : string) :
  jobs_consistent s ->
  let r := handle_deadline env g text s in
  (final_state r = s /\ (outcome r = inr tt \/ outcome r = inl TransportError)) \/
  (exists d, final_state r = with_deadline g d s /\ outcome r = inl StorageError
             /\ db_ok env = false) \/
  (exists d, strptime text = Some d /\ 0 <= days_between d (today env) /\
             db_ok env = true /\
             final_state r = scheduled g (with_row g d (with_deadline g d s)) /\
             (outcome r = inr tt \/ outcome r = inl TransportError)).
Proof.
  intros Hs r. subst r.
  destruct (strptime text) as [d|] eqn:Hp.
  - destruct (Z.lt_ge_cases (days_between d (today env)) 0) as [Hd|Hd].
    + left. rewrite (handle_deadline_past env s g text d Hp Hd).
      split; [reflexivity|]. unfold outcome. cbn [snd].
      destruct (reply_ok env); tauto.
    + destruct (db_ok env) eqn:Hdb.
      * right. right. exists d.
        rewrite (handle_deadline_saved env s g text d Hp Hd Hdb Hs).
        repeat split; try assumption. unfold outcome. cbn [snd].
        destruct (reply_ok env); tauto.
      * right. left. exists d.
        rewrite (handle_deadline_unsaved env s g text d Hp Hd Hdb).
        repeat split.
  - left. rewrite (handle_deadline_malformed env s g text Hp).
    split; [reflexivity|]. unfold outcome. cbn [snd].
    destruct (reply_ok env); tauto.
Qed.

Lemma format_message_escaped (days : Z) : all_escaped (format_message days) = true.
Proof.
  unfold format_message.
  repeat match goal with
  | |- context [if ?b then _ else _] => destruct b
  end; apply escaped_from_sub_from.
Qed.

End HandlerMore.

(** X10. [send_countdown] never raises and never changes the state,
    whatever the transport does: for a group without cached deadline it
    makes no call at all; otherwise it calls [send_message] once with the
    message for the day difference, and logs when the send fails. *)
Theorem send_countdown_contained (env : Env) (s : State) (g : Z) :
  let r := send_countdown env g s in
  outcome r = inr tt /\ final_state r = s /\
  (deadlines s !! g = None -> trace r = []) /\
  (forall d, deadlines s !! g = Some d ->
     trace r =
       SendMessage g (format_message (days_between d (today env)))
       :: (if send_ok env then [] else [LogError])).
Proof.
  intros r. subst r. rewrite send_countdown_run.
  unfold outcome, final_state, trace. cbn [fst snd].
  split; [reflexivity|]. split; [reflexivity|].
  split; [now intros ->|]. now intros d ->.
Qed.

Lemma send_countdown_contained_witness :
  let r := send_countdown (mk_env (mk_date 2026 11 3) true true false 99) 1
             (mk_state {[1 := mk_date 2099 1 1]} ∅ [] no_deadlines) in
  outcome r = inr tt /\
  final_state r = mk_state {[1 := mk_date 2099 1 1]} ∅ [] no_deadlines /\
  trace r = [SendMessage 1 (format_message 26357); LogError].
Proof.
  pose proof (send_countdown_contained
                (mk_env (mk_date 2026 11 3) true true false 99)
                (mk_state {[1 := mk_date 2099 1 1]} ∅ [] no_deadlines) 1)
    as (H1 & H2 & _ & H4).
  split; [exact H1|]. split; [exact H2|].
  exact (H4 (mk_date 2099 1 1) (lookup_singleton_eq _ _)).
Defined.

(** X11. When the confirmation reply fails after the upsert went through,
    the transport error leaves the handler, no countdown message is sent,
    and the new deadline stays in force: cache, store and job are those of
    a successful run. *)
Theorem handle_deadline_reply_failure {T : DigitTable}
    (env : Env) (s : State) (g : Z) (text : string) (d : date) :
  reachable s ->
  strptime text = Some d ->
  0 <= days_between d (today env) ->
  db_ok env = true ->
  reply_ok env = false ->
  let r := handle_deadline env g text s in
  outcome r = inl TransportError /\
  trace r =
    [CacheSet g d; DbUpsert g d] ++ schedule_calls g s ++
    [ReplyText g
       (clean_markdown (confirmation_message d (days_between d (today env))))] /\
  deadlines (final_state r) !! g = Some d /\
  db (final_state r) !! g = Some d /\
  live_jobs g (final_state r) = [countdown_job g].
Proof.
  intros Hr Hp Hd Hdb Hre r. subst r.
  pose proof (reachable_consistent s Hr) as Hs.
  rewrite (handle_deadline_saved env s g text d Hp Hd Hdb Hs), Hre.
  unfold outcome, trace, final_state. cbn [fst snd].
  split; [reflexivity|]. split; [reflexivity|]. split; [|split].
  - cbn [deadlines scheduled with_row with_deadline]. apply lookup_insert_eq.
  - cbn [db scheduled with_row with_deadline]. apply lookup_insert_eq.
  - apply live_jobs_scheduled. revert Hs. now apply consistent_same_jobs.
Qed.

Lemma handle_deadline_reply_failure_witness :
  outcome (handle_deadline (T := sample_digits) (mk_env (mk_date 2026 11 3) true false true 99) 1
             "2099-01-01" (mk_state ∅ ∅ [] no_deadlines)) =
  inl TransportError.
Proof.
  refine (proj1
    (handle_deadline_reply_failure (mk_env (mk_date 2026 11 3) true false true 99)
       _ 1 "2099-01-01" (mk_date 2099 1 1)
       (reachable_start no_deadlines _ eq_refl) _ _ eq_refl eq_refl)).
  - vm_compute. reflexivity.
  - vm_compute. discriminate.
Defined.

(** X12. A submission in one group leaves every other group alone: however
    the run ends, the cached deadline, the stored row and the live jobs of
    a different group are what they were. *)
Theorem handle_deadline_other_groups {T : DigitTable}
    (env : Env) (s : State) (g g' : Z) (text : string) :
  reachable s -> g' <> g ->
  let s' := final_state (handle_deadline env g text s) in
  deadlines s' !! g' = deadlines s !! g' /\
  db s' !! g' = db s !! g' /\
  live_jobs g' s' = live_jobs g' s.
Proof.
  intros Hr Hne s'. subst s'.
  pose proof (reachable_consistent s Hr) as Hs.
  destruct (handle_deadline_cases env s g text Hs)
    as [[-> _]|[(d & -> & _)|(d & _ & _ & _ & -> & _)]].
  - repeat split.
  - cbn [deadlines db with_deadline]. rewrite lookup_insert_ne by congruence.
    repeat split.
  - cbn [deadlines db scheduled with_row with_deadline].
    rewrite !lookup_insert_ne by congruence.
    split; [reflexivity|]. split; [reflexivity|].
    rewrite live_jobs_scheduled_other; [reflexivity| |assumption].
    revert Hs. now apply consistent_same_jobs.
Qed.

Lemma handle_deadline_other_groups_witness :
  let s := final_state
             (dispatch (T := sample_digits) sample_env (DeadlineSubmitted 2 "2030-06-15")
                (mk_state ∅ ∅ [] no_deadlines)) in
  let s' := final_state (handle_deadline (T := sample_digits) sample_env 1 "2099-01-01" s) in
  deadlines s' !! 2 = deadlines s !! 2 /\
  db s' !! 2 = db s !! 2 /\
  live_jobs 2 s' = live_jobs 2 s.
Proof.
  refine (handle_deadline_other_groups sample_env _ 1 2 "2099-01-01" _ _).
  - apply reachable_step. apply (reachable_start no_deadlines). reflexivity.
  - discriminate.
Defined.

(** X13. What an accepted submission stored is what the store gives back:
    after the run, [get_deadline_from_db] for the group returns the
    submitted date (whatever row the group had before) and changes
    nothing. *)
Theorem submitted_deadline_read_back {T : DigitTable}
    (env env' : Env) (s : State) (g : Z) (text : string) (d : date) :
  reachable s ->
  strptime text = Some d ->
  0 <= days_between d (today env) ->
  db_ok env = true -> db_ok env' = true ->
  let s' := final_state (handle_deadline env g text s) in
  get_deadline_from_db env' g s' = (s', [DbSelect g], inr (Some d)).
Proof.
  intros Hr Hp Hd Hdb Hdb' s'. subst s'.
  pose proof (reachable_consistent s Hr) as Hs.
  rewrite (handle_deadline_saved env s g text d Hp Hd Hdb Hs).
  unfold final_state. cbn [fst].
  cbv [get_deadline_from_db bind emit get ret raise]. rewrite Hdb'.
  cbn [db scheduled with_row with_deadline app]. now rewrite lookup_insert_eq.
Qed.

Lemma submitted_deadline_read_back_witness :
  let s' := final_state (handle_deadline (T := sample_digits) sample_env 1 "2099-01-01"
                           (mk_state ∅ ∅ [] no_deadlines)) in
  get_deadline_from_db sample_env 1 s' =
    (s', [DbSelect 1], inr (Some (mk_date 2099 1 1))).
Proof.
  refine (submitted_deadline_read_back sample_env sample_env _ 1 "2099-01-01"
            (mk_date 2099 1 1) (reachable_start no_deadlines _ eq_refl)
            _ _ eq_refl eq_refl).
  - vm_compute. reflexivity.
  - vm_compute. discriminate.
Defined.

(** ** More on joining *)

Section JoinMore.

Lemma new_chat_member_ignores_others_aux
    (env : Env) (s : State) (upd : option ChatMemberUpdated) :
  (forall u, upd = Some u ->
     status_is_member (new_status u) = false \/ new_user_id u <> bot_id env) ->
  new_chat_member env upd s = (s, [], inr tt).
Proof.
  intros H. destruct upd as [u|]; [|reflexivity].
  cbv [new_chat_member].
  destruct (H u eq_refl) as [-> | Hid]; [reflexivity|].
  apply Z.eqb_neq in Hid. rewrite Hid, andb_false_r. reflexivity.
Qed.

Lemma new_chat_member_store_failure_aux
    (env : Env) (s : State) (upd : ChatMemberUpdated) :
  bot_joined env upd ->
  db_ok env = false ->
  new_chat_member env (Some upd) s =
    (s, [DbSelect (chat_id upd)], inl StorageError).
Proof.
  intros [Hst Hid] Hdb. cbv [new_chat_member].
  rewrite Hst, Hid, Z.eqb_refl. cbn [andb].
  cbv [ask_for_deadline try_except bind ret raise emit get put set_deadline
       get_deadline_from_db bot_send_message logger_error any_Exception].
  rewrite Hdb. reflexivity.
Qed.

End JoinMore.

(** X14. [new_chat_member] does nothing unless the update says that the
    bot itself became member or administrator: an update without
    [my_chat_member], with another status, or about another user makes no
    call and changes no state. *)
Theorem new_chat_member_ignores_others
    (env : Env) (s : State) (upd : option ChatMemberUpdated) :
  (forall u, upd = Some u ->
     status_is_member (new_status u) = false \/ new_user_id u <> bot_id env) ->
  new_chat_member env upd s = (s, [], inr tt).
Proof. apply new_chat_member_ignores_others_aux. Qed.

Lemma new_chat_member_ignores_others_witness :
  new_chat_member sample_env (Some (mk_update 1 "left" 99))
    (mk_state ∅ ∅ [] no_deadlines) =
  (mk_state ∅ ∅ [] no_deadlines, [], inr tt).
Proof.
  refine (new_chat_member_ignores_others sample_env _ _ _).
  intros u [= <-]. left. reflexivity.
Defined.

(** X15. When the store cannot be read on joining, the storage error leaves
    the handler right after the query: the cache is untouched and no
    onboarding prompt is sent. *)
Theorem new_chat_member_store_failure
    (env : Env) (s : State) (upd : ChatMemberUpdated) :
  bot_joined env upd ->
  db_ok env = false ->
  new_chat_member env (Some upd) s =
    (s, [DbSelect (chat_id upd)], inl StorageError).
Proof. apply new_chat_member_store_failure_aux. Qed.

Lemma new_chat_member_store_failure_witness :
  new_chat_member store_down_env (Some (mk_update 1 "member" 99))
    (mk_state ∅ ∅ [] no_deadlines) =
  (mk_state ∅ ∅ [] no_deadlines, [DbSelect 1], inl StorageError).
Proof.
  refine (new_chat_member_store_failure store_down_env _
            (mk_update 1 "member" 99) _ eq_refl).
  split; reflexivity.
Defined.

(** X16. Joining twice is joining once as far as the state goes, and the
    second run makes the same calls as the first: the onboarding prompt is
    sent again. *)
Theorem new_chat_member_twice (env : Env) (s : State) (upd : ChatMemberUpdated) :
  bot_joined env upd ->
  db_ok env = true ->
  let first := new_chat_member env (Some upd) s in
  let second := new_chat_member env (Some upd) (final_state first) in
  final_state second = final_state first /\
  trace second = trace first /\
  In (SendMessage (chat_id upd) (clean_markdown welcome_text)) (trace second).
Proof.
  intros Hj Hdb first second. subst second first.
  unfold final_state, trace.
  rewrite (new_chat_member_run env s upd Hj Hdb).
  destruct (db s !! chat_id upd) as [d|] eqn:E; cbn [fst snd];
    rewrite (new_chat_member_run env _ upd Hj Hdb);
    cbn [db with_deadline]; rewrite E; cbn [fst snd]; unfold welcome_calls.
  - split; [|split; [reflexivity|right; right; now left]].
    unfold with_deadline. cbn [deadlines scheduled_jobs job_store db].
    now rewrite insert_insert_eq.
  - split; [reflexivity|]. split; [reflexivity|]. right. now left.
Qed.

Lemma new_chat_member_twice_witness :
  let s := mk_state ∅ ∅ [] {[1 := mk_date 2099 1 1]} in
  let first := new_chat_member sample_env (Some (mk_update 1 "member" 99)) s in
  let second :=
    new_chat_member sample_env (Some (mk_update 1 "member" 99))
      (final_state first) in
  final_state second = final_state first /\
  trace second = trace first /\
  In (SendMessage 1 (clean_markdown welcome_text)) (trace second).
Proof.
  refine (new_chat_member_twice sample_env _ (mk_update 1 "member" 99) _ eq_refl).
  split; reflexivity.
Defined.

(** ** The process as a whole *)

Section ProcessFacts.

Context {T : DigitTable}.

(** The two ways a run of [new_chat_member] can leave the state. *)
Lemma new_chat_member_cases (env : Env) (s : State) (upd : option ChatMemberUpdated) :
  let r := new_chat_member env upd s in
  (final_state r = s \/
   exists u d, upd = Some u /\ db s !! chat_id u = Some d /\
               final_state r = with_deadline (chat_id u) d s) /\
  (outcome r = inr tt \/ (outcome r = inl StorageError /\ db_ok env = false)) /\
  (forall g text, In (SendMessage g text) (trace r) ->
     text = clean_markdown welcome_text) /\
  (forall g text, ~ In (ReplyText g text) (trace r)).
Proof.
  intros r. subst r.
  assert (Idle : forall x : State * list action * (exn + unit),
            x = (s, [], inr tt) ->
            (final_state x = s \/
             exists u d, upd = Some u /\ db s !! chat_id u = Some d /\
                         final_state x = with_deadline (chat_id u) d s) /\
            (outcome x = inr tt \/
             (outcome x = inl StorageError /\ db_ok env = false)) /\
            (forall g text, In (SendMessage g text) (trace x) ->
               text = clean_markdown welcome_text) /\
            (forall g text, ~ In (ReplyText g text) (trace x))).
  { intros x ->. split; [now left|]. split; [now left|].
    split; intros g text []. }
  destruct upd as [u|]; [|now apply Idle].
  destruct (status_is_member (new_status u)) eqn:Hst.
  2:{ apply Idle, new_chat_member_ignores_others_aux. intros ? [= <-]. now left. }
  destruct (Z.eqb_spec (new_user_id u) (bot_id env)) as [Hid|Hid].
  2:{ apply Idle, new_chat_member_ignores_others_aux. intros ? [= <-]. now right. }
  destruct (db_ok env) eqn:Hdb.
  - rewrite (new_chat_member_run env s u (conj Hst Hid) Hdb).
    destruct (db s !! chat_id u) as [d|] eqn:E;
      unfold final_state, outcome, trace, welcome_calls; cbn [fst snd].
    + split; [right; now exists u, d|]. split; [now left|].
      split; intros g text H; destruct (send_ok env); cbn [In] in H;
        repeat (destruct H as [H|H]; try discriminate H); try contradiction.
      all: now injection H as _ <-.
    + split; [now left|]. split; [now left|].
      split; intros g text H; destruct (send_ok env); cbn [In] in H;
        repeat (destruct H as [H|H]; try discriminate H); try contradiction.
      all: now injection H as _ <-.
  - rewrite (new_chat_member_store_failure_aux env s u (conj Hst Hid) Hdb).
    unfold final_state, outcome, trace; cbn [fst snd].
    split; [now left|]. split; [right; now split|].
    split; intros g text [H|[]]; discriminate H.
Qed.

(** In a reachable state every group with a recorded job has a cached
    deadline and a stored row. *)
Lemma reachable_jobs_backed (s : State) :
  reachable s ->
  forall g j, scheduled_jobs s !! g = Some j ->
    is_Some (deadlines s !! g) /\ is_Some (db s !! g).
Proof.
  induction 1 as [stored s Hm|env ev s Hr IH].
  - injection Hm as <-. intros g j H. cbn [scheduled_jobs] in H.
    now rewrite lookup_empty in H.
  - pose proof (reachable_consistent s Hr) as Hs.
    intros g j. destruct ev as [g0 text|g0 text|upd|g0]; cbn [dispatch].
    + destruct (handle_deadline_cases env s g0 text Hs)
        as [[-> _]|[(d & -> & _)|(d & _ & _ & _ & -> & _)]].
      * apply IH.
      * cbn [scheduled_jobs deadlines db with_deadline]. intros H.
        destruct (IH g j H) as [H1 H2]. split; [|exact H2].
        destruct (decide (g0 = g)) as [->|Hne];
          [rewrite lookup_insert_eq|rewrite lookup_insert_ne by assumption];
          eauto.
      * cbn [scheduled_jobs deadlines db scheduled with_row with_deadline].
        destruct (decide (g0 = g)) as [->|Hne].
        -- rewrite !lookup_insert_eq. eauto.
        -- rewrite !lookup_insert_ne by assumption. apply IH.
    + rewrite handle_deadline_without_message_run. apply IH.
    + destruct (new_chat_member_cases env s upd) as [[->|(u & d & _ & _ & ->)] _].
      * apply IH.
      * cbn [scheduled_jobs deadlines db with_deadline]. intros H.
        destruct (IH g j H) as [H1 H2]. split; [|exact H2].
        destruct (decide (chat_id u = g)) as [->|Hne];
          [rewrite lookup_insert_eq|rewrite lookup_insert_ne by assumption];
          eauto.
    + rewrite send_countdown_run. apply IH.
Qed.

Lemma live_job_recorded (s : State) (g : Z) :
  jobs_consistent s -> live_jobs g s <> [] ->
  scheduled_jobs s !! g = Some (countdown_job g).
Proof.
  intros Hs H. unfold live_jobs in H.
  destruct (List.filter _ _) as [|j l] eqn:E; [congruence|].
  assert (Hj : In j (List.filter (fun j => job_args j =? g) (job_store s)))
    by (rewrite E; now left).
  apply filter_In in Hj as [Hj Hg]. apply Z.eqb_eq in Hg.
  pose proof Hs as (H1 & H2 & _). specialize (H2 j Hj). rewrite Hg in H2.
  rewrite H2. f_equal. now apply H1 in H2.
Qed.

End ProcessFacts.

(** X17. From a reachable state no handler run ends with an exception of
    the scheduler or of the parser: a run ends normally, or with the
    storage error when the store call failed, or, for a submission, with
    the transport error when the reply failed, or, for an edited message,
    with the attribute error of line 177.  An edited message always ends
    so, before any call and with the state as it was.  A fired job never
    raises. *)
Theorem dispatch_exceptions {T : DigitTable} (env : Env) (ev : event) (s : State) :
  reachable s ->
  let r := dispatch env ev s in
  (outcome r = inr tt \/
   (outcome r = inl StorageError /\ db_ok env = false) \/
   (outcome r = inl TransportError /\ reply_ok env = false /\
    exists g text, ev = DeadlineSubmitted g text) \/
   (outcome r = inl AttributeError /\ exists g text, ev = MessageEdited g text)) /\
  (forall g text, ev = MessageEdited g text ->
     outcome r = inl AttributeError /\ final_state r = s /\ trace r = []) /\
  (forall g, ev = JobFired g -> outcome r = inr tt).
Proof.
  intros Hr r. subst r. pose proof (reachable_consistent s Hr) as Hs.
  destruct ev as [g text|g text|upd|g]; cbn [dispatch].
  - split; [|split; discriminate].
    assert (O : forall A (x : State * list action) (o : exn + A),
              outcome (x, o) = o) by reflexivity.
    destruct (strptime text) as [d|] eqn:Hp.
    + destruct (Z.lt_ge_cases (days_between d (today env)) 0) as [Hd|Hd].
      * rewrite (handle_deadline_past env s g text d Hp Hd), O.
        destruct (reply_ok env); [now left|]. right. right. left. eauto.
      * destruct (db_ok env) eqn:Hdb.
        -- rewrite (handle_deadline_saved env s g text d Hp Hd Hdb Hs), O.
           destruct (reply_ok env); [now left|]. right. right. left. eauto.
        -- rewrite (handle_deadline_unsaved env s g text d Hp Hd Hdb), O.
           right. left. now split.
    + rewrite (handle_deadline_malformed env s g text Hp), O.
      destruct (reply_ok env); [now left|]. right. right. left. eauto.
  - rewrite handle_deadline_without_message_run.
    split; [|split; [|discriminate]].
    + right. right. right. split; [reflexivity|]. now exists g, text.
    + intros _ _ _. split; [|split]; reflexivity.
  - split; [|split; discriminate].
    destruct (new_chat_member_cases env s upd) as (_ & [H|H] & _); tauto.
  - rewrite send_countdown_run. split; [now left|]. split; [discriminate|reflexivity].
Qed.

Lemma dispatch_exceptions_witness :
  let ev := MessageEdited 1 "2099-01-01" in
  let s := mk_state ∅ ∅ [] no_deadlines in
  let r := dispatch (T := sample_digits) sample_env ev s in
  (outcome r = inr tt \/
   (outcome r = inl StorageError /\ db_ok sample_env = false) \/
   (outcome r = inl TransportError /\ reply_ok sample_env = false /\
    exists g text, ev = DeadlineSubmitted g text) \/
   (outcome r = inl AttributeError /\ exists g text, ev = MessageEdited g text)) /\
  (forall g text, ev = MessageEdited g text ->
     outcome r = inl AttributeError /\ final_state r = s /\ trace r = []) /\
  (forall g, ev = JobFired g -> outcome r = inr tt).
Proof.
  exact (dispatch_exceptions (T := sample_digits) sample_env
           (MessageEdited 1 "2099-01-01") _
           (reachable_start no_deadlines _ eq_refl)).
Defined.

(** X18. In a reachable state a group that has a live job has a cached
    deadline and a stored row, so when its job fires the guard of
    [send_countdown] never skips: exactly one countdown message is handed
    to the transport. *)
Theorem live_job_always_reports {T : DigitTable} (env : Env) (s : State) (g : Z) :
  reachable s -> live_jobs g s <> [] ->
  exists d,
    deadlines s !! g = Some d /\ is_Some (db s !! g) /\
    trace (dispatch env (JobFired g) s) =
      SendMessage g (format_message (days_between d (today env)))
      :: (if send_ok env then [] else [LogError]).
Proof.
  intros Hr Hl. pose proof (reachable_consistent s Hr) as Hs.
  pose proof (live_job_recorded s g Hs Hl) as Hj.
  destruct (reachable_jobs_backed s Hr g _ Hj) as [[d Hd] Hdb].
  exists d. split; [exact Hd|]. split; [exact Hdb|].
  cbn [dispatch]. rewrite send_countdown_run, Hd. reflexivity.
Qed.

Lemma live_job_always_reports_witness :
  let s := final_state
             (dispatch (T := sample_digits) sample_env (DeadlineSubmitted 1 "2099-01-01")
                (mk_state ∅ ∅ [] no_deadlines)) in
  exists d,
    deadlines s !! 1 = Some d /\ is_Some (db s !! 1) /\
    trace (dispatch (T := sample_digits) sample_env (JobFired 1) s) =
      SendMessage 1 (format_message (days_between d (today sample_env)))
      :: (if send_ok sample_env then [] else [LogError]).
Proof.
  refine (live_job_always_reports sample_env _ 1 _ _).
  - apply reachable_step. apply (reachable_start no_deadlines). reflexivity.
  - vm_compute. discriminate.
Defined.

(** X19. Nothing is ever dropped: across any handler run from a reachable
    state, a group that had a cached deadline, a stored row or a live job
    still has one afterwards. *)
Theorem nothing_forgotten {T : DigitTable} (env : Env) (ev : event) (s : State) (g : Z) :
  reachable s ->
  let s' := final_state (dispatch env ev s) in
  (is_Some (deadlines s !! g) -> is_Some (deadlines s' !! g)) /\
  (is_Some (db s !! g) -> is_Some (db s' !! g)) /\
  (live_jobs g s <> [] -> live_jobs g s' <> []).
Proof.
  intros Hr s'. subst s'. pose proof (reachable_consistent s Hr) as Hs.
  assert (W : forall g0 d, is_Some (deadlines s !! g) ->
                           is_Some (<[g0 := d]> (deadlines s) !! g)).
  { intros g0 d H. destruct (decide (g0 = g)) as [->|Hne];
      [rewrite lookup_insert_eq; eauto|now rewrite lookup_insert_ne]. }
  destruct ev as [g0 text|g0 text|upd|g0]; cbn [dispatch].
  - destruct (handle_deadline_cases env s g0 text Hs)
      as [[-> _]|[(d & -> & _)|(d & _ & _ & _ & -> & _)]].
    + tauto.
    + cbn [deadlines db with_deadline].
      split; [apply W|]. split; [tauto|].
      now rewrite (live_jobs_same_store s (with_deadline g0 d s)).
    + cbn [deadlines db scheduled with_row with_deadline].
      split; [apply W|]. split.
      * intros H. destruct (decide (g0 = g)) as [->|Hne];
          [rewrite lookup_insert_eq; eauto|now rewrite lookup_insert_ne].
      * intros H. assert (Hs' : jobs_consistent (with_row g0 d (with_deadline g0 d s)))
          by (revert Hs; now apply consistent_same_jobs).
        destruct (decide (g = g0)) as [->|Hne].
        -- now rewrite (live_jobs_scheduled _ g0 Hs').
        -- now rewrite (live_jobs_scheduled_other _ g0 g Hs' Hne).
  - rewrite handle_deadline_without_message_run. cbn [final_state fst]. tauto.
  - destruct (new_chat_member_cases env s upd) as [[->|(u & d & _ & _ & ->)] _].
    + tauto.
    + cbn [deadlines db with_deadline].
      split; [apply W|]. split; [tauto|].
      now rewrite (live_jobs_same_store s (with_deadline (chat_id u) d s)).
  - rewrite send_countdown_run. cbn [final_state fst]. tauto.
Qed.

Lemma nothing_forgotten_witness :
  let s := final_state
             (dispatch (T := sample_digits) sample_env (DeadlineSubmitted 1 "2099-01-01")
                (mk_state ∅ ∅ [] no_deadlines)) in
  let s' := final_state (dispatch (T := sample_digits) sample_env (DeadlineSubmitted 2 "2030-06-15") s) in
  (is_Some (deadlines s !! 1) -> is_Some (deadlines s' !! 1)) /\
  (is_Some (db s !! 1) -> is_Some (db s' !! 1)) /\
  (live_jobs 1 s <> [] -> live_jobs 1 s' <> []).
Proof.
  refine (nothing_forgotten sample_env (DeadlineSubmitted 2 "2030-06-15") _ 1 _).
  apply reachable_step. apply (reachable_start no_deadlines). reflexivity.
Defined.

(** X20. Only a submission that parses to today or later and whose upsert
    goes through changes the job table: after any other run from a
    reachable state the recorded jobs and the job store are what they
    were. *)
Theorem jobs_change_only_on_saved_submission {T : DigitTable} (env : Env) (ev : event) (s : State) :
  reachable s ->
  let s' := final_state (dispatch env ev s) in
  (scheduled_jobs s' <> scheduled_jobs s \/ job_store s' <> job_store s) ->
  exists g text d,
    ev = DeadlineSubmitted g text /\ strptime text = Some d /\
    0 <= days_between d (today env) /\ db_ok env = true.
Proof.
  intros Hr s'. subst s'. pose proof (reachable_consistent s Hr) as Hs.
  destruct ev as [g0 text|g0 text|upd|g0]; cbn [dispatch].
  - destruct (handle_deadline_cases env s g0 text Hs)
      as [[-> _]|[(d & -> & _)|(d & Hp & Hd & Hdb & _)]].
    + intros [H|H]; congruence.
    + cbn [scheduled_jobs job_store with_deadline]. intros [H|H]; congruence.
    + intros _. now exists g0, text, d.
  - rewrite handle_deadline_without_message_run. cbn [final_state fst].
    intros [H|H]; congruence.
  - destruct (new_chat_member_jobs env s upd) as [-> ->].
    intros [H|H]; congruence.
  - rewrite send_countdown_run. cbn [final_state fst]. intros [H|H]; congruence.
Qed.

Lemma jobs_change_only_on_saved_submission_witness :
  exists g text d,
    DeadlineSubmitted 1 "2099-01-01" = DeadlineSubmitted g text /\
    strptime (T := sample_digits) text = Some d /\
    0 <= days_between d (today sample_env) /\ db_ok sample_env = true.
Proof.
  refine (jobs_change_only_on_saved_submission sample_env
            (DeadlineSubmitted 1 "2099-01-01") _
            (reachable_start no_deadlines _ eq_refl) _).
  right. vm_compute. discriminate.
Defined.

(** ** What the messages carry *)

Section MessageFacts.

Context {T : DigitTable}.

Lemma has_backslash_app (a b : string) :
  has_backslash (a +:+ b) = has_backslash a || has_backslash b.
Proof.
  induction a as [|c a IH]; [reflexivity|].
  rewrite append_cons. unfold has_backslash in *. cbn [chars list_ascii_of_string existsb].
  fold (chars (a +:+ b)) (chars a). now rewrite IH, orb_assoc.
Qed.

Lemma digits_chars (u : Decimal.uint) (c : ascii) :
  In c (chars (NilEmpty.string_of_uint u)) -> between "0" "9" (String c EmptyString) = true.
Proof.
  induction u; cbn [NilEmpty.string_of_uint chars list_ascii_of_string In];
    intros H; try contradiction;
    (destruct H as [<-|H]; [reflexivity|now apply IHu]).
Qed.

(** The decimal form of a number holds digits and at most a sign. *)
Lemma str_of_int_chars (n : Z) (c : ascii) :
  In c (chars (str_of_int n)) -> between "0" "9" (String c EmptyString) = true \/ c = "-"%char.
Proof.
  unfold str_of_int. destruct n as [|p|p]; cbn [Z.to_int NilZero.string_of_int].
  - intros [<-|[]]. now left.
  - unfold NilZero.string_of_uint. intros H. left.
    destruct (Pos.to_uint p) eqn:E; try (revert H; apply digits_chars).
    destruct H as [<-|[]]. reflexivity.
  - unfold NilZero.string_of_uint. intros [<-|H]; [now right|]. left.
    destruct (Pos.to_uint p) eqn:E; try (revert H; apply digits_chars).
    destruct H as [<-|[]]. reflexivity.
Qed.

Lemma str_of_int_no (n : Z) (c : ascii) :
  between "0" "9" (String c EmptyString) = false -> c <> "-"%char -> ~ In c (chars (str_of_int n)).
Proof.
  intros Hd Hc H. apply str_of_int_chars in H as [H|H]; congruence.
Qed.

Lemma str_of_int_no_backslash (n : Z) : has_backslash (str_of_int n) = false.
Proof.
  destruct (has_backslash (str_of_int n)) eqn:E; [|reflexivity].
  unfold has_backslash in E. apply existsb_exists in E as (c & Hc & Hb).
  unfold is_backslash in Hb. apply Ascii.eqb_eq in Hb. subst c.
  now apply str_of_int_no in Hc.
Qed.

(** Two texts without [c] that agree up to and after a [c] are equal. *)
Lemma append_sep_inj (c : ascii) (x y r r' : string) :
  ~ In c (chars x) -> ~ In c (chars y) ->
  x +:+ String c r = y +:+ String c r' -> x = y.
Proof.
  revert y. induction x as [|a x IH]; intros [|b y] Hx Hy H.
  - reflexivity.
  - rewrite append_cons in H. injection H as <- _.
    exfalso. apply Hy. now left.
  - rewrite append_cons in H. injection H as -> _.
    exfalso. apply Hx. now left.
  - rewrite !append_cons in H. injection H as <- H. f_equal.
    apply (IH y); [| |exact H].
    + intros I. apply Hx. now right.
    + intros I. apply Hy. now right.
Qed.

(** A message body built as prefix, number, blank and tail shows its
    number, escaped or not. *)
Lemma template_inj (P S S' : string) (a b : Z) :
  S = String " " S' ->
  has_backslash P = false -> has_backslash S = false ->
  clean_markdown (P +:+ str_of_int a +:+ S) =
  clean_markdown (P +:+ str_of_int b +:+ S) -> a = b.
Proof.
  intros -> HP HS H.
  apply clean_markdown_inj_aux in H.
  - apply append_inj_r in H. apply str_of_int_inj.
    revert H. apply append_sep_inj; now apply str_of_int_no.
  - now rewrite !has_backslash_app, HP, HS, str_of_int_no_backslash.
  - now rewrite !has_backslash_app, HP, HS, str_of_int_no_backslash.
Qed.

(** The branch [format_message] takes, and where the fixed texts come from. *)
Lemma format_message_tone (days : Z) :
  exists t, format_message days = tone_message t days /\
            (t = Today -> days = 0) /\ (t = OneDay -> days = 1) /\
            (days < 0 -> t = UrgentShort).
Proof.
  unfold format_message.
  destruct (Z.eqb_spec days 0); [exists Today|
  destruct (Z.eqb_spec days 1); [exists OneDay|
  destruct (Z.leb_spec days 3); [exists UrgentShort|
  destruct (Z.leb_spec days 7); [exists HighAlert|
  destruct (Z.leb_spec days 14); [exists ElevatedCaution|exists CalmLongRange]]]]];
    (split; [cbv [tone_message]; reflexivity|]);
    (split; [|split]); intros; first [lia | congruence].
Qed.

(** What a submission run hands to the transport. *)
Lemma handle_deadline_texts (env : Env) (s : State) (g : Z) (text : string) :
  jobs_consistent s ->
  forall g' t,
    (In (SendMessage g' t) (trace (handle_deadline env g text s)) ->
     exists days, t = format_message days) /\
    (In (ReplyText g' t) (trace (handle_deadline env g text s)) ->
     t = invalid_format_text \/ t = already_passed_text \/
     exists d days, t = clean_markdown (confirmation_message d days)).
Proof.
  intros Hs g' t.
  assert (L : forall A (x : State) l (o : exn + A), trace (x, l, o) = l)
    by reflexivity.
  destruct (strptime text) as [d|] eqn:Hp.
  - destruct (Z.lt_ge_cases (days_between d (today env)) 0) as [Hd|Hd].
    + rewrite (handle_deadline_past env s g text d Hp Hd), L.
      split; intros [H|[]]; [discriminate H|]. injection H as _ <-. tauto.
    + destruct (db_ok env) eqn:Hdb.
      * rewrite (handle_deadline_saved env s g text d Hp Hd Hdb Hs), L.
        unfold schedule_calls, countdown_calls.
        destruct (scheduled_jobs s !! g), (reply_ok env), (send_ok env);
          cbn [app In]; split; intros H;
          repeat (destruct H as [H|H]; try discriminate H); try contradiction;
          try (injection H as _ <-); eauto.
      * rewrite (handle_deadline_unsaved env s g text d Hp Hd Hdb), L.
        cbn [In]. split; intros H;
          repeat (destruct H as [H|H]; try discriminate H); contradiction.
  - rewrite (handle_deadline_malformed env s g text Hp), L.
    split; intros [H|[]]; [discriminate H|]. injection H as _ <-. tauto.
Qed.

End MessageFacts.

(** X21. Whatever a handler run from a reachable state hands to
    [send_message] has every reserved character right after a backslash;
    so has every reply other than the two fixed error replies, which are
    sent as written. *)
Theorem sent_texts_escaped {T : DigitTable} (env : Env) (ev : event) (s : State) (g : Z) (t : string) :
  reachable s ->
  (In (SendMessage g t) (trace (dispatch env ev s)) -> all_escaped t = true) /\
  (In (ReplyText g t) (trace (dispatch env ev s)) ->
   t = invalid_format_text \/ t = already_passed_text \/ all_escaped t = true).
Proof.
  intros Hr. pose proof (reachable_consistent s Hr) as Hs.
  destruct ev as [g0 text|g0 text|upd|g0]; cbn [dispatch].
  - destruct (handle_deadline_texts env s g0 text Hs g t) as [H1 H2]. split.
    + intros H. destruct (H1 H) as [days ->]. apply format_message_escaped.
    + intros H. destruct (H2 H) as [->|[->|(d & days & ->)]]; [tauto..|].
      right. right. apply escaped_from_sub_from.
  - rewrite handle_deadline_without_message_run. split; intros [].
  - destruct (new_chat_member_cases env s upd) as (_ & _ & H1 & H2). split.
    + intros H. rewrite (H1 g t H). apply escaped_from_sub_from.
    + intros H. now apply H2 in H.
  - rewrite send_countdown_run.
    assert (L : forall A (x : State) l (o : exn + A), trace (x, l, o) = l)
      by reflexivity.
    rewrite L. unfold countdown_calls.
    destruct (deadlines s !! g0) as [d|]; [|split; intros []].
    destruct (send_ok env); cbn [In]; split; intros H;
      repeat (destruct H as [H|H]; try discriminate H); try contradiction;
      injection H as _ <-; apply format_message_escaped.
Qed.

Lemma sent_texts_escaped_witness :
  (In (SendMessage 1 (format_message 26357))
      (trace (dispatch (T := sample_digits) sample_env (DeadlineSubmitted 1 "2099-01-01")
                (mk_state ∅ ∅ [] no_deadlines))) ->
   all_escaped (format_message 26357) = true) /\
  (In (ReplyText 1 (format_message 26357))
      (trace (dispatch (T := sample_digits) sample_env (DeadlineSubmitted 1 "2099-01-01")
                (mk_state ∅ ∅ [] no_deadlines))) ->
   format_message 26357 = invalid_format_text \/
   format_message 26357 = already_passed_text \/
   all_escaped (format_message 26357) = true).
Proof.
  exact (sent_texts_escaped sample_env (DeadlineSubmitted 1 "2099-01-01") _ 1
           (format_message 26357) (reachable_start no_deadlines _ eq_refl)).
Defined.

(** X22. The countdown message tells the day count: two day counts with
    the same message are the same count. *)
Theorem format_message_inj (a b : Z) :
  format_message a = format_message b -> a = b.
Proof.
  intros H.
  destruct (format_message_tone a) as (ta & Ea & Ha0 & Ha1 & _).
  destruct (format_message_tone b) as (tb & Eb & Hb0 & Hb1 & _).
  rewrite Ea, Eb in H. pose proof (tone_message_inj _ _ _ _ H) as <-.
  destruct ta; cbv [tone_message] in H.
  - rewrite Ha0, Hb0; reflexivity.
  - rewrite Ha1, Hb1; reflexivity.
  - revert H. unfold urgent_short_text.
    eapply (template_inj _ _ _ a b eq_refl); vm_compute; reflexivity.
  - revert H. unfold high_alert_text.
    eapply (template_inj _ _ _ a b eq_refl); vm_compute; reflexivity.
  - revert H. unfold elevated_caution_text.
    eapply (template_inj _ _ _ a b eq_refl); vm_compute; reflexivity.
  - revert H. unfold long_range_text.
    eapply (template_inj _ _ _ a b eq_refl); vm_compute; reflexivity.
Qed.

Lemma format_message_inj_witness : 5 = 5.
Proof. exact (format_message_inj 5 5 eq_refl). Defined.

(** X23. A deadline that has passed keeps being reported: when the cached
    date lies before today, [send_countdown] still sends, and what it
    sends is the urgent short text with the negative day count. *)
Theorem send_countdown_overdue (env : Env) (s : State) (g : Z) (d : date) :
  deadlines s !! g = Some d ->
  days_between d (today env) < 0 ->
  trace (send_countdown env g s) =
    SendMessage g
      (clean_markdown (urgent_short_text (days_between d (today env))))
    :: (if send_ok env then [] else [LogError]).
Proof.
  intros Hc Hd. rewrite send_countdown_run, Hc.
  destruct (format_message_tone (days_between d (today env)))
    as (t & E & _ & _ & Ht).
  rewrite (Ht Hd) in E. unfold countdown_calls. rewrite E. reflexivity.
Qed.

Lemma send_countdown_overdue_witness :
  trace (send_countdown sample_env 1
           (mk_state {[1 := mk_date 2026 10 29]} ∅ [] no_deadlines)) =
    SendMessage 1
      (clean_markdown
         (urgent_short_text
            (days_between (mk_date 2026 10 29) (today sample_env))))
    :: (if send_ok sample_env then [] else [LogError]).
Proof.
  refine (send_countdown_overdue sample_env _ 1 (mk_date 2026 10 29) _ _).
  - apply lookup_singleton_eq.
  - vm_compute. reflexivity.
Defined.

(** ** Submissions and the calendar *)

Section CalendarRuns.

Context {T : DigitTable}.

Lemma strptime_valid (text : string) (d : date) :
  strptime text = Some d -> valid_date d.
Proof.
  unfold strptime, valid_date.
  destruct (format_regex_match (characters text)) as [[[[Y m] dd] rest]|];
    [|discriminate].
  cbn [mbind option_bind]. destruct rest; [|discriminate].
  destruct (check_date_fields _ _ _) eqn:E; [|discriminate].
  now intros [= <-].
Qed.

End CalendarRuns.

(** X24. With a valid date for today, a submission that parses is answered
    with the "already passed" reply exactly when its date comes before
    today in the calendar; today's own date is taken as a deadline. *)
Theorem past_rejection_iff {T : DigitTable}
    (env : Env) (s : State) (g : Z) (text : string) (d : date) :
  reachable s ->
  valid_date (today env) ->
  strptime text = Some d ->
  (trace (handle_deadline env g text s) = [ReplyText g already_passed_text]
   <-> date_before d (today env)) /\
  (d = today env ->
   In (CacheSet g d) (trace (handle_deadline env g text s))).
Proof.
  intros Hr Ht Hp. pose proof (reachable_consistent s Hr) as Hs.
  pose proof (strptime_valid text d Hp) as Hv.
  pose proof (toordinal_before d (today env) Hv Ht) as Hlt.
  assert (L : forall A (x : State) l (o : exn + A), trace (x, l, o) = l)
    by reflexivity.
  destruct (Z.lt_ge_cases (days_between d (today env)) 0) as [Hd|Hd].
  - rewrite (handle_deadline_past env s g text d Hp Hd), L. split.
    + split; [intros _|reflexivity].
      destruct d as [y m dd], (today env) as [y' m' dd'].
      unfold days_between in Hd.
      pose proof (toordinal_before (mk_date y' m' dd') (mk_date y m dd) Ht Hv)
        as Hgt.
      unfold date_before in *. cbn [year month day] in *.
      destruct (Z.lt_trichotomy y y') as [|[->|]]; [tauto| |lia].
      destruct (Z.lt_trichotomy m m') as [|[->|]]; [tauto| |lia].
      destruct (Z.lt_trichotomy dd dd') as [|[->|]]; [tauto|lia|lia].
    + intros ->. unfold days_between in Hd. lia.
  - assert (N : ~ date_before d (today env))
      by (intros B; specialize (Hlt B); unfold days_between in Hd; lia).
    destruct (db_ok env) eqn:Hdb.
    + rewrite (handle_deadline_saved env s g text d Hp Hd Hdb Hs), L.
      split; [split; [discriminate|tauto]|]. intros _. now left.
    + rewrite (handle_deadline_unsaved env s g text d Hp Hd Hdb), L.
      split; [split; [discriminate|tauto]|]. intros _. now left.
Qed.

Lemma past_rejection_iff_witness :
  (trace (handle_deadline (T := sample_digits) sample_env 1 "2026-11-02"
            (mk_state ∅ ∅ [] no_deadlines)) =
     [ReplyText 1 already_passed_text]
   <-> date_before (mk_date 2026 11 2) (today sample_env)) /\
  (mk_date 2026 11 2 = today sample_env ->
   In (CacheSet 1 (mk_date 2026 11 2))
      (trace (handle_deadline (T := sample_digits) sample_env 1 "2026-11-02"
                (mk_state ∅ ∅ [] no_deadlines)))).
Proof.
  refine (past_rejection_iff sample_env _ 1 "2026-11-02" (mk_date 2026 11 2)
            (reachable_start no_deadlines _ eq_refl) eq_refl _).
  vm_compute. reflexivity.
Defined.

(** X25. Jobs of different groups live side by side: scheduling one group
    and then another from a reachable state succeeds both times, and each
    of the two groups then has exactly one live job. *)
Theorem schedule_two_groups {T : DigitTable} (s : State) (g g' : Z) :
  reachable s -> g <> g' ->
  let first := schedule g s in
  let second := schedule g' (final_state first) in
  outcome first = inr tt /\ outcome second = inr tt /\
  live_jobs g (final_state second) = [countdown_job g] /\
  live_jobs g' (final_state second) = [countdown_job g'].
Proof.
  intros Hr Hne first second. subst second first.
  pose proof (reachable_consistent s Hr) as Hs.
  pose proof (scheduled_consistent s g Hs) as Hs'.
  unfold outcome, final_state.
  rewrite (schedule_run s g Hs). cbn [fst snd].
  rewrite (schedule_run (scheduled g s) g' Hs'). cbn [fst snd].
  split; [reflexivity|]. split; [reflexivity|]. split.
  - rewrite (live_jobs_scheduled_other _ g' g Hs' Hne).
    now apply live_jobs_scheduled.
  - now apply live_jobs_scheduled.
Qed.

Lemma schedule_two_groups_witness :
  let first := schedule 1 (mk_state ∅ ∅ [] no_deadlines) in
  let second := schedule 2 (final_state first) in
  outcome first = inr tt /\ outcome second = inr tt /\
  live_jobs 1 (final_state second) = [countdown_job 1] /\
  live_jobs 2 (final_state second) = [countdown_job 2].
Proof.
  refine (schedule_two_groups (T := sample_digits) _ 1 2 (reachable_start no_deadlines _ eq_refl) _).
  discriminate.
Defined.
